(** * Camera re-posing workflow (infinigen_examples/place_cameras.py)

    A shallow embedding of the script that re-poses the cameras of a saved
    indoor scene: the rig cleaner [delete_existing_camera_rigs], the scene
    classifier [reconstruct_scene_vars] and the workflow [re_pose_cameras].

    The script is glue code over the host application (bpy) and the
    procedural-generation library; it threads one global scene through a
    sequence of calls, any of which may raise.  The embedding therefore is a
    state-and-exception monad over a [World]: the host scene, the record of
    the calls made to the external collaborators, and the log. *)

From Stdlib Require Import Ascii.
From stdpp Require Import base tactics option list gmap strings pretty.

Set Default Proof Using "Type".
Open Scope string_scope.
Open Scope list_scope.

(** ** Scene objects, tags and the scene state *)

(** A scene object handle: [o.name] and [o.type] (a string such as
    ["MESH"], ["CAMERA"], ["EMPTY"]). *)
Record Obj := mkObj { obj_name : string; obj_type : string }.

#[global] Instance Obj_eq_dec : EqDecision Obj.
Proof. solve_decision. Defined.

(** Tags of [infinigen.core.tags]: the enumerations [t.Semantics] and
    [t.Subpart], each member identified by its name. *)
Inductive Tag :=
| Semantics (member : string)
| Subpart (member : string).

#[global] Instance Tag_eq_dec : EqDecision Tag.
Proof. solve_decision. Defined.

Definition Semantics_Room : Tag := Semantics "Room".
Definition Subpart_SupportSurface : Tag := Subpart "SupportSurface".

(** The host scene state, as far as the script reads it:
    [bpy.data.objects] in its enumeration order, [bpy.data.collections]
    (collection name to [collection.objects]) and the current selection
    [bpy.context.selected_objects]. *)
Record Scene := mkScene {
  objects : list Obj;
  collections : gmap string (list Obj);
  selected : list Obj
}.

(** ** Results, events and the world *)

Definition exn := string.

Inductive result (A : Type) :=
| Ok (a : A)
| Raise (e : exn).
Arguments Ok {A} a.
Arguments Raise {A} e.

(** ** Paths (pathlib) *)

(** A path: its root (["/"] when absolute, [""] when relative) and its
    components. *)
Record Path := mkPath { path_root : string; path_parts : list string }.

Fixpoint join_parts (l : list string) : string :=
  match l with
  | [] => ""
  | [x] => x
  | x :: l' => x +:+ "/" +:+ join_parts l'
  end.

(** [str(p)] *)
Definition Path_str (p : Path) : string :=
  match path_root p, path_parts p with
  | "", [] => "."
  | r, l => r +:+ join_parts l
  end.

(** [p.name]: the final component, if any. *)
Definition Path_name (p : Path) : string := default "" (last (path_parts p)).

(** [p.parent] *)
Definition Path_parent (p : Path) : Path :=
  mkPath (path_root p) (removelast (path_parts p)).

Fixpoint rfind_from (c : Ascii.ascii) (s : string) (i : nat) : option nat :=
  match s with
  | EmptyString => None
  | String c' s' =>
      match rfind_from c s' (S i) with
      | Some j => Some j
      | None => if Ascii.eqb c' c then Some i else None
      end
  end.

(** [s.rfind(c)]: the highest index of [c] in [s], or [-1]. *)
Definition str_rfind (s : string) (c : Ascii.ascii) : Z :=
  match rfind_from c s 0 with
  | Some j => Z.of_nat j
  | None => (-1)%Z
  end.

(** [p.stem]: the final component without its suffix. *)
Definition Path_stem (p : Path) : string :=
  let name := Path_name p in
  let i := str_rfind name "."%char in
  if ((0 <? i)%Z && (i <? Z.of_nat (String.length name) - 1)%Z)%bool
  then String.substring 0 (Z.to_nat i) name
  else name.

(** [p / name], for a [name] that is a single relative component. *)
Definition Path_div (p : Path) (name : string) : Path :=
  mkPath (path_root p) (path_parts p ++ [name]).

(** The parsed command line: [--input_blend] and [--output_folder]. *)
Record Args := mkArgs { input_blend : Path; output_folder : Path }.

Section Monad.

(** The preprocessed-scene token returned by
    [placement.camera.camera_selection_preprocessing] is opaque. *)
Context {Token : Type}.

(** The calls the script makes to its collaborators, with their arguments. *)
Inductive Call :=
| CallOpenMainfile (filepath : string)
| CallGetTags (o : Obj)
| CallPreprocessing (terrain : option Obj) (scene_objs : list Obj)
| CallSpawnCameraRigs
| CallExtractTaggedFaces (o : Obj) (tags : list Tag)
| CallJoinObjects (objs : list Obj)
| CallComputePoses (cam_rigs : list Obj) (scene_preprocessed : Token)
    (init_surfaces : Obj) (nonroom_objs : list Obj)
| CallDelete (o : Obj)
| CallSaveAsMainfile (filepath : string).

Inductive Outcome :=
| Returned
| Raised (e : exn).

Record Event := mkEvent { ev_call : Call; ev_outcome : Outcome }.

(** The world: the host scene, the collaborator calls made so far (oldest
    first) and the messages passed to [logger.info]. *)
Record World := mkWorld {
  scene : Scene;
  calls : list Event;
  log : list string
}.

(** ** The state-and-exception monad *)

Definition M (A : Type) : Type := World -> World * result A.

Definition ret {A} (a : A) : M A := fun w => (w, Ok a).

Definition raise {A} (e : exn) : M A := fun w => (w, Raise e).

Definition bind {A B} (m : M A) (f : A -> M B) : M B :=
  fun w =>
    match m w with
    | (w', Ok a) => f a w'
    | (w', Raise e) => (w', Raise e)
    end.

End Monad.

Notation "x <- c1 ;; c2" := (bind c1 (fun x => c2))
  (at level 100, c1 at next level, right associativity).
Notation "c1 ;; c2" := (bind c1 (fun _ => c2))
  (at level 100, right associativity).

Section Workflow.

Context {Token : Type}.
Local Abbreviation M := (M (Token := Token)).

(** [logger.info(msg)] *)
Definition logger_info (msg : string) : M unit :=
  fun w => (mkWorld (scene w) (calls w) (log w ++ [msg]), Ok tt).

(** Reading the host's global scene. *)
Definition get_scene : M Scene := fun w => (w, Ok (scene w)).

(** An external collaborator acts on the scene and returns or raises. *)
Definition Ext (A : Type) : Type := Scene -> Scene * result A.

Definition outcome_of {A} (r : result A) : Outcome :=
  match r with
  | Ok _ => Returned
  | Raise e => Raised e
  end.

(** Calling a collaborator: it runs on the scene, and the call is recorded
    with its outcome. *)
Definition invoke {A} (c : Call) (f : Ext A) : M A :=
  fun w =>
    let '(s', r) := f (scene w) in
    (mkWorld s' (calls w ++ [mkEvent c (outcome_of r)]) (log w), r).

(** List comprehensions whose condition or element calls a collaborator. *)
Fixpoint filterM {A} (p : A -> M bool) (l : list A) : M (list A) :=
  match l with
  | [] => ret []
  | x :: l' =>
      b <- p x ;;
      r <- filterM p l' ;;
      ret (if b then x :: r else r)
  end.

Fixpoint mapM {A B} (f : A -> M B) (l : list A) : M (list B) :=
  match l with
  | [] => ret []
  | x :: l' =>
      y <- f x ;;
      r <- mapM f l' ;;
      ret (y :: r)
  end.

(** ** The collaborators *)

(** The external interfaces the script consumes; each is opaque. *)
Record Host := mkHost {
  (** [bpy.ops.wm.open_mainfile(filepath=...)] *)
  wm_open_mainfile : string -> Ext unit;
  (** [tagging.get_tags(o)] *)
  tagging_get_tags : Obj -> Ext (list Tag);
  (** [placement.camera.camera_selection_preprocessing(terrain, scene_objs)] *)
  camera_selection_preprocessing : option Obj -> list Obj -> Ext Token;
  (** [placement.camera.spawn_camera_rigs()] *)
  spawn_camera_rigs : Ext (list Obj);
  (** [tagging.extract_tagged_faces(o, tags)] *)
  tagging_extract_tagged_faces : Obj -> list Tag -> Ext Obj;
  (** [butil.join_objects(objs)] *)
  butil_join_objects : list Obj -> Ext Obj;
  (** [cam_traj.compute_poses(cam_rigs, scene_preprocessed, init_surfaces,
      nonroom_objs)] *)
  cam_traj_compute_poses : list Obj -> Token -> Obj -> list Obj -> Ext unit;
  (** [butil.delete(o)] *)
  butil_delete : Obj -> Ext unit;
  (** [bpy.ops.wm.save_as_mainfile(filepath=...)] *)
  wm_save_as_mainfile : string -> Ext unit
}.

Context (host : Host).

(** Modelled from the spec: [bpy.ops.object.delete()], the host's batch
    object-delete, is missing from the sources; it removes every selected
    object from the scene state (from the objects and from the members of
    every collection) and leaves nothing selected. *)
Definition bpy_ops_object_delete : M unit :=
  fun w =>
    let s := scene w in
    let keep := filter (fun o => o ∉ selected s) in
    (mkWorld (mkScene (keep (objects s)) (keep <$> collections s) [])
       (calls w) (log w), Ok tt).

(** Modelled from the spec: [butil.SelectObjects], the scoped selection of
    the select-then-delete batch operation, is missing from the sources; on
    entry it remembers the selection and selects exactly the given objects,
    on exit (also when the body raises) it selects again the remembered
    objects that still exist. *)
Definition with_SelectObjects {A} (objs : list Obj) (body : M A) : M A :=
  fun w =>
    let s := scene w in
    let saved := selected s in
    let '(w', r) := body (mkWorld (mkScene (objects s) (collections s) objs)
                            (calls w) (log w)) in
    let s' := scene w' in
    (mkWorld (mkScene (objects s') (collections s')
                (filter (fun o => o ∈ objects s') saved))
       (calls w') (log w'), r).

(** ** The rig cleaner *)

Definition delete_existing_camera_rigs : M unit :=
  s <- get_scene ;;
  if decide ("camera_rigs" ∈ dom (collections s)) then
    rig_collection <-
      match collections s !! "camera_rigs" with
      | Some c => ret c
      | None => raise "KeyError: 'bpy_prop_collection[key]: key camera_rigs not found'"
      end ;;
    let objects_to_delete := rig_collection in
    match objects_to_delete with
    | [] => logger_info "'camera_rigs' collection is empty."
    | _ :: _ =>
        logger_info ("Deleting " +:+ pretty (List.length objects_to_delete)
                     +:+ " existing camera rigs...") ;;
        with_SelectObjects objects_to_delete bpy_ops_object_delete
    end
  else
    logger_info "No 'camera_rigs' collection found, nothing to delete.".

(** ** The scene classifier *)

(** [bpy.data.objects] *)
Definition bpy_data_objects : M (list Obj) :=
  s <- get_scene ;; ret (objects s).

Definition get_tags (o : Obj) : M (list Tag) :=
  invoke (CallGetTags o) (tagging_get_tags host o).

(** [t.Semantics.Room in tagging.get_tags(o)] *)
Definition has_room_tag (o : Obj) : M bool :=
  tags <- get_tags o ;;
  ret (bool_decide (Semantics_Room ∈ tags)).

(** [t.Semantics.Room not in tagging.get_tags(o)] *)
Definition lacks_room_tag (o : Obj) : M bool :=
  tags <- get_tags o ;;
  ret (negb (bool_decide (Semantics_Room ∈ tags))).

Definition reconstruct_scene_vars : M (list Obj * list Obj * list Obj) :=
  objs <- bpy_data_objects ;;
  let all_objs := filter (fun o => obj_type o = "MESH") objs in
  room_objs <- filterM has_room_tag all_objs ;;
  nonroom_objs <- filterM lacks_room_tag all_objs ;;
  logger_info ("Reconstructed scene: Found " +:+ pretty (List.length room_objs)
               +:+ " rooms and " +:+ pretty (List.length nonroom_objs)
               +:+ " other objects.") ;;
  ret (room_objs, nonroom_objs, room_objs ++ nonroom_objs).

(** The single-pass reference of the specification: every mesh object is
    evaluated once and is put in one of the two partitions. *)
Fixpoint partitionM {A} (p : A -> M bool) (l : list A) : M (list A * list A) :=
  match l with
  | [] => ret ([], [])
  | x :: l' =>
      b <- p x ;;
      r <- partitionM p l' ;;
      ret (if b then (x :: fst r, snd r) else (fst r, x :: snd r))
  end.

Definition classify_single_pass : M (list Obj * list Obj * list Obj) :=
  objs <- bpy_data_objects ;;
  let all_objs := filter (fun o => obj_type o = "MESH") objs in
  parts <- partitionM has_room_tag all_objs ;;
  let room_objs := fst parts in
  let nonroom_objs := snd parts in
  logger_info ("Reconstructed scene: Found " +:+ pretty (List.length room_objs)
               +:+ " rooms and " +:+ pretty (List.length nonroom_objs)
               +:+ " other objects.") ;;
  ret (room_objs, nonroom_objs, room_objs ++ nonroom_objs).

(** ** The workflow *)

Definition open_mainfile (filepath : string) : M unit :=
  invoke (CallOpenMainfile filepath) (wm_open_mainfile host filepath).

Definition preprocessing (terrain : option Obj) (scene_objs : list Obj) : M Token :=
  invoke (CallPreprocessing terrain scene_objs)
    (camera_selection_preprocessing host terrain scene_objs).

Definition spawn_rigs : M (list Obj) :=
  invoke CallSpawnCameraRigs (spawn_camera_rigs host).

Definition extract_tagged_faces (o : Obj) (tags : list Tag) : M Obj :=
  invoke (CallExtractTaggedFaces o tags) (tagging_extract_tagged_faces host o tags).

Definition join_objects (objs : list Obj) : M Obj :=
  invoke (CallJoinObjects objs) (butil_join_objects host objs).

Definition compute_poses (cam_rigs : list Obj) (scene_preprocessed : Token)
    (init_surfaces : Obj) (nonroom_objs : list Obj) : M unit :=
  invoke (CallComputePoses cam_rigs scene_preprocessed init_surfaces nonroom_objs)
    (cam_traj_compute_poses host cam_rigs scene_preprocessed init_surfaces nonroom_objs).

Definition delete (o : Obj) : M unit :=
  invoke (CallDelete o) (butil_delete host o).

Definition save_as_mainfile (filepath : string) : M unit :=
  invoke (CallSaveAsMainfile filepath) (wm_save_as_mainfile host filepath).

(** The name of the output file is the stem of the input file followed by
    this suffix. *)
Definition output_suffix : string := "_with_new_cameras.blend".

Definition re_pose_cameras (args : Args) : M unit :=
  (* 1. load the scene *)
  logger_info ("Loading scene from " +:+ Path_str (input_blend args)) ;;
  open_mainfile (Path_str (input_blend args)) ;;
  (* 2. delete the cameras that are already there *)
  delete_existing_camera_rigs ;;
  (* 3. rebuild the object lists *)
  vars <- reconstruct_scene_vars ;;
  let '(solved_rooms, nonroom_objs, scene_objs) := vars in
  (* 4. place the new cameras *)
  logger_info "Using preexisting logic to place new cameras..." ;;
  scene_preprocessed <- preprocessing None scene_objs ;;
  camera_rigs <- spawn_rigs ;;
  faces <- mapM (fun o => extract_tagged_faces o [Subpart_SupportSurface])
             solved_rooms ;;
  solved_floor_surface <- join_objects faces ;;
  compute_poses camera_rigs scene_preprocessed solved_floor_surface nonroom_objs ;;
  delete solved_floor_surface ;;
  logger_info ("Successfully placed " +:+ pretty (List.length camera_rigs)
               +:+ " new camera rigs.") ;;
  (* 5. save the scene to a new file *)
  let output_path :=
    Path_div (output_folder args) (Path_stem (input_blend args) +:+ output_suffix) in
  save_as_mainfile (Path_str output_path) ;;
  logger_info ("Saved modified scene to " +:+ Path_str output_path).

End Workflow.

(** ** A fake scene-state collaborator

    A small concrete host on which the workflow can be run: files are a map
    from path to scene, tags are a table on object names, spawning adds one
    rig to the "camera_rigs" collection, extraction and join add their
    result object to the scene, and [butil.delete] removes its argument. *)
Module Fake.

Definition mesh (name : string) : Obj := mkObj name "MESH".

Definition add_object (o : Obj) (s : Scene) : Scene :=
  mkScene (objects s ++ [o]) (collections s) (selected s).

Definition remove_object (o : Obj) (s : Scene) : Scene :=
  let keep := filter (fun x => x ≠ o) in
  mkScene (keep (objects s)) (keep <$> collections s) (keep (selected s)).

Definition tags_of (o : Obj) : list Tag :=
  if decide (obj_name o ∈ ["room.0"; "room.1"; "room.2"])
  then [Semantics "Room"; Subpart "SupportSurface"]
  else [Semantics "Object"].

Definition rig : Obj := mkObj "camrig.0" "EMPTY".
Definition floor : Obj := mesh "solved_floor_surface".

Definition solver_ok : Ext unit := fun s => (s, Ok tt).
Definition solver_fails : Ext unit :=
  fun s => (s, Raise "ValueError: no valid camera pose found").

Definition host (files : gmap string Scene) (solver : Ext unit) : Host (Token := nat) :=
  {| wm_open_mainfile p := fun s =>
       match files !! p with
       | Some s' => (s', Ok tt)
       | None => (s, Raise "RuntimeError: cannot read file")
       end;
     tagging_get_tags o := fun s => (s, Ok (tags_of o));
     camera_selection_preprocessing _ objs := fun s => (s, Ok (List.length objs));
     spawn_camera_rigs := fun s =>
       (mkScene (objects s ++ [rig]) (<["camera_rigs" := [rig]]> (collections s))
          (selected s), Ok [rig]);
     tagging_extract_tagged_faces o _ := fun s =>
       let f := mesh (obj_name o +:+ ".SupportSurface") in (add_object f s, Ok f);
     butil_join_objects objs := fun s =>
       (add_object floor (foldr remove_object s objs), Ok floor);
     cam_traj_compute_poses _ _ _ _ := solver;
     butil_delete o := fun s => (remove_object o s, Ok tt);
     wm_save_as_mainfile _ := fun s => (s, Ok tt) |}.

(** A scene with two old rig objects, three rooms and five other meshes. *)
Definition old_rigs : list Obj :=
  [mkObj "camrig.old" "EMPTY"; mkObj "camera.old" "CAMERA"].

Definition house : Scene :=
  mkScene
    ([mesh "room.0"; mesh "chair"; mesh "room.1"; mkObj "sun" "LIGHT"; mesh "table";
      mesh "room.2"; mesh "lamp"; mesh "sofa"; mesh "rug"] ++ old_rigs)
    {["camera_rigs" := old_rigs]}
    [mesh "chair"].

(** A scene with no "camera_rigs" collection, no room and four meshes. *)
Definition yard : Scene :=
  mkScene [mesh "bench"; mesh "tree"; mkObj "sun" "LIGHT"; mesh "rock"; mesh "fence"]
    ∅ [].

(** The yard after a rig is spawned. *)
Definition yard_with_rig : Scene :=
  mkScene (objects yard ++ [rig]) (<["camera_rigs" := [rig]]> ∅) [].

(** A scene whose "camera_rigs" collection is empty. *)
Definition bare : Scene :=
  mkScene [mesh "room.0"] {["camera_rigs" := []]} [].

Definition files : gmap string Scene :=
  {["/scenes/house.blend" := house; "/scenes/yard.blend" := yard;
    "/scenes/bare.blend" := bare]}.

Definition args (name : string) : Args :=
  mkArgs (mkPath "/" ["scenes"; name]) (mkPath "" ["outputs"; "posed"]).

Definition empty_scene : Scene := mkScene [] ∅ [].

(** A scene whose "camera_rigs" collection holds a mesh object besides the
    rig itself. *)
Definition workshop_rigs : list Obj :=
  [mkObj "camrig.old" "EMPTY"; mesh "camrig.gizmo"].

Definition workshop : Scene :=
  mkScene ([mesh "room.0"; mesh "bench"] ++ workshop_rigs)
    {["camera_rigs" := workshop_rigs]} [].

(** A host whose join raises on the empty list. *)
Definition host_join_raises : Host (Token := nat) :=
  let h := host files solver_ok in
  {| wm_open_mainfile := wm_open_mainfile h;
     tagging_get_tags := tagging_get_tags h;
     camera_selection_preprocessing := camera_selection_preprocessing h;
     spawn_camera_rigs := spawn_camera_rigs h;
     tagging_extract_tagged_faces := tagging_extract_tagged_faces h;
     butil_join_objects objs := fun s =>
       match objs with
       | [] => (s, Raise "IndexError: list index out of range")
       | _ :: _ => butil_join_objects h objs s
       end;
     cam_traj_compute_poses := cam_traj_compute_poses h;
     butil_delete := butil_delete h;
     wm_save_as_mainfile := wm_save_as_mainfile h |}.

(** A scene without mesh objects. *)
Definition studio : Scene :=
  mkScene [mkObj "sun" "LIGHT"; mkObj "camera" "CAMERA"] ∅ [].

(** A host whose tag lookup raises on the object named [bad]. *)
Definition host_failing_lookup (bad : string) : Host (Token := nat) :=
  let h := host files solver_ok in
  {| wm_open_mainfile := wm_open_mainfile h;
     tagging_get_tags o := fun s =>
       if decide (obj_name o = bad)
       then (s, Raise "AttributeError: object has no tag data")
       else tagging_get_tags h o s;
     camera_selection_preprocessing := camera_selection_preprocessing h;
     spawn_camera_rigs := spawn_camera_rigs h;
     tagging_extract_tagged_faces := tagging_extract_tagged_faces h;
     butil_join_objects := butil_join_objects h;
     cam_traj_compute_poses := cam_traj_compute_poses h;
     butil_delete := butil_delete h;
     wm_save_as_mainfile := wm_save_as_mainfile h |}.

Definition start (s : Scene) : World (Token := nat) := mkWorld s [] [].

End Fake.

(** ** Vocabulary of the properties *)

Section Vocabulary.

Context {Token : Type}.

(** The collaborator calls a computation adds to the record when run in [w]. *)
Definition trace_of {A} (m : M (Token := Token) A) (w : World) : list Event :=
  drop (List.length (calls w)) (calls (fst (m w))).

(** The mesh objects of a scene, in enumeration order. *)
Definition mesh_objects (s : Scene) : list Obj :=
  filter (fun o => obj_type o = "MESH") (objects s).

(** [t.Semantics.Room in tags] *)
Definition room_tagged (tags : list Tag) : bool :=
  bool_decide (Semantics_Room ∈ tags).

(** The tag lookup is a query: it returns the tag set [tags_of s o] the scene
    [s] associates with [o], and leaves the scene as it is. *)
Definition tag_lookup_reports (host : Host (Token := Token))
    (tags_of : Scene -> Obj -> list Tag) : Prop :=
  ∀ o s, tagging_get_tags host o s = (s, Ok (tags_of s o)).

(** The tag lookup does not change the scene (it may still raise). *)
Definition tag_lookup_read_only (host : Host (Token := Token)) : Prop :=
  ∀ o s, fst (tagging_get_tags host o s) = s.

Definition lookup_returned (o : Obj) : Event (Token := Token) :=
  mkEvent (CallGetTags o) Returned.

Definition is_lookup_of (o : Obj) (e : Event (Token := Token)) : bool :=
  match ev_call e with
  | CallGetTags o' => bool_decide (o' = o)
  | _ => false
  end.

(** How many times the tags of [o] are queried in a record of calls. *)
Definition lookups (o : Obj) (t : list (Event (Token := Token))) : nat :=
  List.length (filter (fun e => is_lookup_of o e) t).

(** "No mesh object is evaluated more than once." *)
Definition at_most_one_lookup (host : Host (Token := Token)) (w : World) : Prop :=
  ∀ o, (lookups o (trace_of (reconstruct_scene_vars host) w) ≤ 1)%nat.

(** The scene the rig cleaner leaves when run on [s]. *)
Definition cleaned (s : Scene) : Scene :=
  scene (fst (delete_existing_camera_rigs (mkWorld (Token := unit) s [] []))).

Definition returned (e : Event (Token := Token)) : Prop :=
  ev_outcome e = Returned.

(** The external placement calls: preprocessing, rig spawning, tagged-face
    extraction, join and trajectory solving. *)
Definition is_placement_call (c : Call (Token := Token)) : Prop :=
  match c with
  | CallPreprocessing _ _ | CallSpawnCameraRigs | CallExtractTaggedFaces _ _
  | CallJoinObjects _ | CallComputePoses _ _ _ _ => True
  | _ => False
  end.

Definition is_save_call (c : Call (Token := Token)) : Prop :=
  match c with
  | CallSaveAsMainfile _ => True
  | _ => False
  end.

(** The calls made before the trajectory solver. *)
Definition before_solver (c : Call (Token := Token)) : Prop :=
  match c with
  | CallOpenMainfile _ | CallGetTags _ | CallPreprocessing _ _
  | CallSpawnCameraRigs | CallExtractTaggedFaces _ _ | CallJoinObjects _ => True
  | _ => False
  end.

(** The path the scene is saved to. *)
Definition saved_path (args : Args) : Path :=
  Path_div (output_folder args) (Path_stem (input_blend args) +:+ output_suffix).

(** A record of calls agrees with a result: every call returned, or the
    result is the error of the last call and the calls before it returned.
    (An error that no collaborator raised leaves only returned calls.) *)
Definition agrees {A} (t : list (Event (Token := Token))) (r : result A) : Prop :=
  match r with
  | Ok _ => Forall returned t
  | Raise err =>
      Forall returned t ∨
      ∃ pre c, t = pre ++ [mkEvent c (Raised err)] ∧ Forall returned pre
  end.

(** A computation that only makes calls in [K], stops at the first call
    that raises and propagates its error. *)
Definition disciplined (K : Call (Token := Token) -> Prop) {A} (m : M A) : Prop :=
  ∀ w, ∃ t, calls (fst (m w)) = calls w ++ t ∧
            Forall (fun e => K (ev_call e)) t ∧ agrees t (snd (m w)).

(** The calls from the trajectory solver on, with the result of the run:
    the solver raises; or it returns and the deletion of the floor surface
    raises; or both return and saving raises; or all three return. *)
Inductive solver_tail (args : Args) :
    list (Event (Token := Token)) -> result unit -> Prop :=
| tail_solver_raised rigs tok floor nonroom err :
    solver_tail args
      [mkEvent (CallComputePoses rigs tok floor nonroom) (Raised err)]
      (Raise err)
| tail_delete_raised rigs tok floor nonroom err :
    solver_tail args
      [mkEvent (CallComputePoses rigs tok floor nonroom) Returned;
       mkEvent (CallDelete floor) (Raised err)]
      (Raise err)
| tail_save_raised rigs tok floor nonroom err :
    solver_tail args
      [mkEvent (CallComputePoses rigs tok floor nonroom) Returned;
       mkEvent (CallDelete floor) Returned;
       mkEvent (CallSaveAsMainfile (Path_str (saved_path args))) (Raised err)]
      (Raise err)
| tail_saved rigs tok floor nonroom :
    solver_tail args
      [mkEvent (CallComputePoses rigs tok floor nonroom) Returned;
       mkEvent (CallDelete floor) Returned;
       mkEvent (CallSaveAsMainfile (Path_str (saved_path args))) Returned]
      (Ok tt).

(** The shape of the calls of a run of the workflow: calls made before the
    solver, then either the run has aborted there, or they all returned and
    the calls from the solver on follow. *)
Definition workflow_shape (args : Args) (t : list (Event (Token := Token)))
    (r : result unit) : Prop :=
  ∃ pre tail,
    t = pre ++ tail ∧ Forall (fun e => before_solver (ev_call e)) pre ∧
    ((tail = [] ∧ (∃ err, r = Raise err) ∧ agrees pre r) ∨
     (Forall returned pre ∧ solver_tail args tail r)).

Definition shaped (args : Args) (m : M (Token := Token) unit) : Prop :=
  ∀ w, ∃ t, calls (fst (m w)) = calls w ++ t ∧ workflow_shape args t (snd (m w)).

(** "The temporary floor-surface object is deleted after the solver call,
    whether the solver returns or raises": a deletion of the floor surface
    is called in every run that calls the solver. *)
Definition floor_deleted_regardless (host : Host (Token := Token)) (args : Args)
    (w : World) : Prop :=
  ∀ rigs tok floor nonroom outcome,
    mkEvent (CallComputePoses rigs tok floor nonroom) outcome
      ∈ trace_of (re_pose_cameras host args) w →
    ∃ outcome', mkEvent (CallDelete floor) outcome'
                  ∈ trace_of (re_pose_cameras host args) w.

(** When the solver call raises in a run of [m], the scene the run ends
    with is the scene that call left. *)
Definition left_by_solver (host : Host (Token := Token)) {A} (m : M A) : Prop :=
  ∀ w rigs tok floor nonroom err,
    mkEvent (CallComputePoses rigs tok floor nonroom) (Raised err) ∈ trace_of m w →
    ∃ s, cam_traj_compute_poses host rigs tok floor nonroom s
         = (scene (fst (m w)), Raise err).

(** "The solver is still invoked": the run calls the trajectory solver. *)
Definition solver_invoked (host : Host (Token := Token)) (args : Args)
    (w : World) : Prop :=
  ∃ rigs tok floor nonroom outcome,
    mkEvent (CallComputePoses rigs tok floor nonroom) outcome
      ∈ trace_of (re_pose_cameras host args) w.

Definition lookup_raised (o : Obj) (err : exn) : Event (Token := Token) :=
  mkEvent (CallGetTags o) (Raised err).


End Vocabulary.

(** * Properties *)

Section RigCleaner.

Context {Token : Type}.
Implicit Types w : World (Token := Token).

Lemma filter_not_in_nil (l : list Obj) : filter (fun o => o ∉ @nil Obj) l = l.
Proof.
  induction l as [|x l IH]; [done|].
  rewrite filter_cons_True; [by rewrite IH | apply not_elem_of_nil].
Qed.

Lemma filter_not_in_incl (l l' : list Obj) :
  l' ⊆ l → filter (fun o => o ∉ l) l' = [].
Proof.
  induction l' as [|x l' IH]; intros Hsub; [done|].
  rewrite filter_cons_False.
  - apply IH. intros y Hy. apply Hsub. by right.
  - intros Hx. apply Hx, Hsub. by left.
Qed.

Lemma length_filter_not_in (l rigs : list Obj) :
  NoDup l → NoDup rigs → rigs ⊆ l →
  List.length (filter (fun o => o ∉ rigs) l) + List.length rigs = List.length l.
Proof.
  intros Hl Hrigs Hsub.
  rewrite <- (Permutation_length (filter_app_complement (fun o => o ∈ rigs) l)).
  rewrite length_app.
  assert (Hperm : filter (fun o => o ∈ rigs) l ≡ₚ rigs).
  { apply NoDup_Permutation; [by apply NoDup_filter | done |].
    intros o. rewrite list_elem_of_filter. split; [tauto|].
    intros Ho. split; [done | by apply Hsub]. }
  rewrite (Permutation_length Hperm). lia.
Qed.

(** C4. Without a "camera_rigs" collection, or with an empty one, the rig
    cleaner returns normally and changes neither the scene nor the calls
    made: it only logs one message. *)
Theorem delete_existing_camera_rigs_noop w :
  collections (scene w) !! "camera_rigs" = None ∨
  collections (scene w) !! "camera_rigs" = Some [] →
  ∃ msg, delete_existing_camera_rigs w
         = (mkWorld (scene w) (calls w) (log w ++ [msg]), Ok tt).
Proof.
  intros Hc. unfold delete_existing_camera_rigs, bind, get_scene.
  destruct (decide ("camera_rigs" ∈ dom (collections (scene w)))) as [Hin|Hout].
  - destruct Hc as [Hc|Hc].
    + apply elem_of_dom in Hin as [c Hsome]. congruence.
    + rewrite Hc. simpl. eauto.
  - eauto.
Qed.

(** C5. With members [rigs] in the "camera_rigs" collection, the rig cleaner
    returns normally and the scene keeps exactly the objects that are not
    among [rigs], in their order: when the [N] members are distinct objects
    of a duplicate-free scene, [N] objects fewer.  The collection is left
    empty and no collaborator is called. *)
Theorem delete_existing_camera_rigs_exact w rigs :
  collections (scene w) !! "camera_rigs" = Some rigs →
  ∃ w', delete_existing_camera_rigs w = (w', Ok tt) ∧
        objects (scene w') = filter (fun o => o ∉ rigs) (objects (scene w)) ∧
        (∀ o, o ∈ objects (scene w') ↔ o ∈ objects (scene w) ∧ o ∉ rigs) ∧
        (NoDup (objects (scene w)) → NoDup rigs → rigs ⊆ objects (scene w) →
         List.length (objects (scene w')) + List.length rigs
         = List.length (objects (scene w))) ∧
        collections (scene w') !! "camera_rigs" = Some [] ∧
        calls w' = calls w.
Proof.
  intros Hc. unfold delete_existing_camera_rigs, bind, get_scene.
  destruct (decide ("camera_rigs" ∈ dom (collections (scene w)))) as [_|Hout].
  2: { exfalso. apply Hout, elem_of_dom. eauto. }
  rewrite Hc. simpl. destruct rigs as [|r rigs].
  - eexists. split; [reflexivity|]. simpl. rewrite filter_not_in_nil.
    split; [done|]. split; [|split; [intros; simpl; lia | done]].
    intros o. split; [intros Ho; split; [done | apply not_elem_of_nil] | by intros [? _]].
  - eexists. split; [reflexivity|]. simpl.
    split; [done|]. split; [intros o; rewrite list_elem_of_filter; tauto|].
    split; [apply length_filter_not_in|]. split; [|done].
    rewrite lookup_fmap, Hc. simpl. f_equal. by apply filter_not_in_incl.
Qed.

End RigCleaner.

(** ** Running the monad *)

Section Runs.

Context {Token : Type}.
Implicit Types w : World (Token := Token).

Lemma world_eta w : mkWorld (scene w) (calls w) (log w) = w.
Proof. by destruct w. Qed.

Lemma bind_run {A B} (m : M A) (f : A → M B) w :
  bind m f w = match m w with
               | (w', Ok a) => f a w'
               | (w', Raise e) => (w', Raise e)
               end.
Proof. reflexivity. Qed.

Lemma trace_of_app {A} (m : M A) w new :
  calls (fst (m w)) = calls w ++ new → trace_of m w = new.
Proof. intros E. unfold trace_of. rewrite E. apply drop_app_length. Qed.

Lemma filterM_sublist {A} (p : A → M (Token := Token) bool) l :
  ∀ w w' r, filterM p l w = (w', Ok r) → r `sublist_of` l.
Proof.
  induction l as [|x l IH]; intros w w' r; simpl.
  - unfold ret. intros [= _ <-]. constructor.
  - unfold bind at 1. destruct (p x w) as [w1 [b|e]]; [|done].
    unfold bind at 1. destruct (filterM p l w1) as [w2 [r'|e]] eqn:E; [|done].
    unfold ret. intros [= _ <-]. apply IH in E.
    destruct b; by constructor.
Qed.

Lemma filterM_scene {A} (p : A → M (Token := Token) bool) l :
  (∀ x w, scene (fst (p x w)) = scene w) →
  ∀ w, scene (fst (filterM p l w)) = scene w.
Proof.
  intros Hp. induction l as [|x l IH]; intros w; simpl; [done|].
  unfold bind at 1. specialize (Hp x w).
  destruct (p x w) as [w1 [b|e]]; simpl in Hp; [|done].
  unfold bind at 1. specialize (IH w1).
  destruct (filterM p l w1) as [w2 [r'|e]]; simpl in *; congruence.
Qed.

End Runs.

(** ** Calls are made in order and the first failure aborts *)

Section Discipline.

Context {Token : Type}.
Local Abbreviation M := (M (Token := Token)).
Implicit Types host : Host (Token := Token).
Implicit Types w : World (Token := Token).
Implicit Types t : list (Event (Token := Token)).
Implicit Types K : Call (Token := Token) → Prop.

Lemma agrees_app_returned {A} t1 t2 (r : result A) :
  Forall returned t1 → agrees t2 r → agrees (t1 ++ t2) r.
Proof.
  intros H1. destruct r as [a|err]; simpl.
  - intros H2. by apply Forall_app.
  - intros [H2|(pre & c & -> & H2)].
    + left. by apply Forall_app.
    + right. exists (t1 ++ pre), c. split; [by rewrite (assoc_L (++))|].
      by apply Forall_app.
Qed.

Lemma raised_not_returned (c : Call (Token := Token)) err :
  ¬ returned (mkEvent c (Raised err)).
Proof. unfold returned. simpl. discriminate. Qed.

Lemma disciplined_ret K {A} (a : A) : disciplined K (ret a).
Proof. intros w. exists []. simpl. by rewrite app_nil_r. Qed.

Lemma disciplined_raise K {A} e : disciplined K (raise (A := A) e).
Proof. intros w. exists []. simpl. rewrite app_nil_r. repeat split; auto. Qed.

Lemma disciplined_get_scene K : disciplined K get_scene.
Proof. intros w. exists []. simpl. by rewrite app_nil_r. Qed.

Lemma disciplined_logger_info K msg : disciplined K (logger_info msg).
Proof. intros w. exists []. simpl. by rewrite app_nil_r. Qed.

Lemma disciplined_invoke K {A} c (f : Ext A) : K c → disciplined K (invoke c f).
Proof.
  intros HK w. unfold invoke. destruct (f (scene w)) as [s' r]. simpl.
  exists [mkEvent c (outcome_of r)]. split; [done|]. split.
  - by repeat constructor.
  - destruct r as [a|err]; simpl.
    + by repeat constructor.
    + right. by exists [], c.
Qed.

Lemma disciplined_bind K {A B} (m : M A) (f : A → M B) :
  disciplined K m → (∀ a, disciplined K (f a)) → disciplined K (bind m f).
Proof.
  intros Hm Hf w. destruct (Hm w) as (t1 & E1 & K1 & A1). rewrite bind_run.
  destruct (m w) as [w1 [a|err]]; simpl in *.
  - destruct (Hf a w1) as (t2 & E2 & K2 & A2). exists (t1 ++ t2).
    rewrite E2, E1, (assoc_L (++)). split; [done|]. split.
    + by apply Forall_app.
    + by apply agrees_app_returned.
  - by exists t1.
Qed.

Lemma disciplined_filterM K {A} (p : A → M bool) l :
  (∀ x, disciplined K (p x)) → disciplined K (filterM p l).
Proof.
  intros Hp. induction l as [|x l IH]; simpl.
  - apply disciplined_ret.
  - apply disciplined_bind; [done|]. intros b.
    apply disciplined_bind; [done|]. intros r. apply disciplined_ret.
Qed.

Lemma disciplined_mapM K {A B} (f : A → M B) l :
  (∀ x, disciplined K (f x)) → disciplined K (mapM f l).
Proof.
  intros Hf. induction l as [|x l IH]; simpl.
  - apply disciplined_ret.
  - apply disciplined_bind; [done|]. intros y.
    apply disciplined_bind; [done|]. intros r. apply disciplined_ret.
Qed.

Lemma disciplined_bpy_ops_object_delete K : disciplined K bpy_ops_object_delete.
Proof. intros w. exists []. simpl. by rewrite app_nil_r. Qed.

Lemma disciplined_with_SelectObjects K {A} objs (body : M A) :
  disciplined K body → disciplined K (with_SelectObjects objs body).
Proof.
  intros Hb w. unfold with_SelectObjects.
  destruct (Hb (mkWorld (mkScene (objects (scene w)) (collections (scene w)) objs)
                  (calls w) (log w))) as (t & E & HK & Ha).
  destruct (body _) as [w' r]. simpl in *. by exists t.
Qed.

Lemma disciplined_delete_existing_camera_rigs K :
  disciplined K delete_existing_camera_rigs.
Proof.
  unfold delete_existing_camera_rigs.
  apply disciplined_bind; [apply disciplined_get_scene|]. intros s.
  destruct (decide _); [|apply disciplined_logger_info].
  apply disciplined_bind.
  - destruct (collections s !! "camera_rigs");
      [apply disciplined_ret | apply disciplined_raise].
  - intros [|r rigs]; [apply disciplined_logger_info|].
    apply disciplined_bind; [apply disciplined_logger_info|]. intros _.
    apply disciplined_with_SelectObjects, disciplined_bpy_ops_object_delete.
Qed.

Lemma disciplined_reconstruct_scene_vars K host :
  (∀ o, K (CallGetTags o)) → disciplined K (reconstruct_scene_vars host).
Proof.
  intros HK.
  assert (Hget : ∀ o, disciplined K (get_tags host o)).
  { intros o. by apply disciplined_invoke. }
  unfold reconstruct_scene_vars, bpy_data_objects.
  apply disciplined_bind.
  { apply disciplined_bind; [apply disciplined_get_scene|].
    intros s. apply disciplined_ret. }
  intros objs. apply disciplined_bind.
  { apply disciplined_filterM. intros o.
    apply disciplined_bind; [done|]. intros tags. apply disciplined_ret. }
  intros rooms. apply disciplined_bind.
  { apply disciplined_filterM. intros o.
    apply disciplined_bind; [done|]. intros tags. apply disciplined_ret. }
  intros others. apply disciplined_bind; [apply disciplined_logger_info|].
  intros _. apply disciplined_ret.
Qed.

(** A disciplined computation of calls made before the solver, followed by
    computations of the shape of the workflow, has that shape. *)
Lemma shaped_bind args {A} (m : M A) (f : A → M unit) :
  disciplined before_solver m → (∀ a, shaped args (f a)) →
  shaped args (bind m f).
Proof.
  intros Hm Hf w. destruct (Hm w) as (t1 & E1 & K1 & A1). rewrite bind_run.
  destruct (m w) as [w1 [a|err]]; simpl in *.
  - destruct (Hf a w1) as (t2 & E2 & pre & tail & -> & Kpre & Hshape).
    exists (t1 ++ pre ++ tail). rewrite E2, E1, !(assoc_L (++)). split; [done|].
    exists (t1 ++ pre), tail. split; [done|]. split; [by apply Forall_app|].
    destruct Hshape as [(-> & Herr & Ha)|[Hret Htail]].
    + left. repeat split; try done. by apply agrees_app_returned.
    + right. split; [by apply Forall_app | done].
  - exists t1. split; [done|]. exists t1, []. rewrite app_nil_r.
    split; [done|]. split; [done|]. left. eauto.
Qed.

Lemma shaped_solver_tail host args rigs tok floor nonroom msg msg' :
  shaped args
    (compute_poses host rigs tok floor nonroom ;;
     delete host floor ;;
     logger_info msg ;;
     save_as_mainfile host (Path_str (saved_path args)) ;;
     logger_info msg').
Proof.
  intros w. unfold compute_poses, delete, save_as_mainfile, invoke, logger_info, bind.
  destruct (cam_traj_compute_poses _ _ _ _ _ _) as [s1 [[]|err]]; simpl.
  2: { eexists. split; [reflexivity|]. exists []. eexists. split; [reflexivity|].
       split; [constructor|]. right. split; constructor. }
  destruct (butil_delete _ _ _) as [s2 [[]|err]]; simpl.
  2: { eexists. split; [by rewrite <- (assoc_L (++))|]. exists []. eexists.
       split; [reflexivity|]. split; [constructor|]. right. split; constructor. }
  destruct (wm_save_as_mainfile _ _ _) as [s3 [[]|err]]; simpl.
  2: { eexists. split; [by rewrite <- !(assoc_L (++))|]. exists []. eexists.
       split; [reflexivity|]. split; [constructor|]. right. split; constructor. }
  eexists. split; [by rewrite <- !(assoc_L (++))|]. exists []. eexists.
  split; [reflexivity|]. split; [constructor|]. right. split; constructor.
Qed.

(** Every run of the workflow has the shape of [workflow_shape]. *)
Lemma re_pose_cameras_shaped host args : shaped args (re_pose_cameras host args).
Proof.
  unfold re_pose_cameras.
  apply shaped_bind; [apply disciplined_logger_info|]. intros _.
  apply shaped_bind; [by apply disciplined_invoke|]. intros _.
  apply shaped_bind; [apply disciplined_delete_existing_camera_rigs|]. intros _.
  apply shaped_bind; [by apply disciplined_reconstruct_scene_vars|].
  intros [[solved_rooms nonroom_objs] scene_objs].
  apply shaped_bind; [apply disciplined_logger_info|]. intros _.
  apply shaped_bind; [by apply disciplined_invoke|]. intros scene_preprocessed.
  apply shaped_bind; [by apply disciplined_invoke|]. intros camera_rigs.
  apply shaped_bind.
  { apply disciplined_mapM. intros o. by apply disciplined_invoke. }
  intros faces.
  apply shaped_bind; [by apply disciplined_invoke|]. intros solved_floor_surface.
  apply shaped_solver_tail.
Qed.

Lemma re_pose_cameras_trace host args w :
  calls (fst (re_pose_cameras host args w))
  = calls w ++ trace_of (re_pose_cameras host args) w ∧
  workflow_shape args (trace_of (re_pose_cameras host args) w)
    (snd (re_pose_cameras host args w)).
Proof.
  destruct (re_pose_cameras_shaped host args w) as (t & E & Hshape).
  by rewrite (trace_of_app _ _ _ E).
Qed.

Lemma left_by_solver_bind host args {A} (m : M A) (f : A → M unit) :
  disciplined before_solver m →
  (∀ a, shaped args (f a)) → (∀ a, left_by_solver host (f a)) →
  left_by_solver host (bind m f).
Proof.
  intros Hm Hsh Hf w rigs tok floor nonroom err. unfold trace_of.
  destruct (Hm w) as (t1 & E1 & K1 & _). rewrite Forall_forall in K1.
  rewrite bind_run. destruct (m w) as [w1 [a|e]]; simpl in *.
  - destruct (Hsh a w1) as (t2 & E2 & _).
    rewrite E2, E1, <- (assoc_L (++)), drop_app_length.
    intros Hin. apply elem_of_app in Hin as [Hin|Hin].
    { exfalso. exact (K1 _ Hin). }
    apply (Hf a w1). by rewrite (trace_of_app _ _ _ E2).
  - rewrite E1, drop_app_length. intros Hin. exfalso. exact (K1 _ Hin).
Qed.

Lemma left_by_solver_tail host args rigs tok floor nonroom msg msg' :
  left_by_solver host
    (compute_poses host rigs tok floor nonroom ;;
     delete host floor ;;
     logger_info msg ;;
     save_as_mainfile host (Path_str (saved_path args)) ;;
     logger_info msg').
Proof.
  intros w rigs' tok' floor' nonroom' err'. unfold trace_of.
  unfold compute_poses, delete, save_as_mainfile, invoke, logger_info, bind.
  destruct (cam_traj_compute_poses host rigs tok floor nonroom (scene w))
    as [s1 [[]|err]] eqn:Esolve; simpl.
  2: { rewrite drop_app_length. intros Hin.
       apply list_elem_of_singleton in Hin. simplify_eq. by exists (scene w). }
  destruct (butil_delete _ _ _) as [s2 [[]|err]]; simpl.
  2: { rewrite <- (assoc_L (++)), drop_app_length. intros Hin. simpl in Hin.
       rewrite ?elem_of_cons, elem_of_nil in Hin. destruct_or!; simplify_eq. }
  destruct (wm_save_as_mainfile _ _ _) as [s3 [[]|err]]; simpl;
    rewrite <- !(assoc_L (++)), drop_app_length; intros Hin; simpl in Hin;
    rewrite ?elem_of_cons, elem_of_nil in Hin; destruct_or!; simplify_eq.
Qed.

(** When the solver raises, the scene at the end of the run is the scene
    the solver left. *)
Lemma re_pose_cameras_left_by_solver host args :
  left_by_solver host (re_pose_cameras host args).
Proof.
  assert (Hboth : shaped args (re_pose_cameras host args) ∧
                  left_by_solver host (re_pose_cameras host args));
    [|by destruct Hboth].
  assert (Hbind : ∀ A (m : M A) (f : A → M unit),
    disciplined before_solver m →
    (∀ a, shaped args (f a) ∧ left_by_solver host (f a)) →
    shaped args (bind m f) ∧ left_by_solver host (bind m f)).
  { intros A m f Hm Hf. split.
    - apply shaped_bind; [done|]. intros a. apply Hf.
    - apply (left_by_solver_bind host args); [done|..]; intros a; apply Hf. }
  unfold re_pose_cameras.
  apply Hbind; [apply disciplined_logger_info|]. intros _.
  apply Hbind; [by apply disciplined_invoke|]. intros _.
  apply Hbind; [apply disciplined_delete_existing_camera_rigs|]. intros _.
  apply Hbind; [by apply disciplined_reconstruct_scene_vars|].
  intros [[solved_rooms nonroom_objs] scene_objs].
  apply Hbind; [apply disciplined_logger_info|]. intros _.
  apply Hbind; [by apply disciplined_invoke|]. intros scene_preprocessed.
  apply Hbind; [by apply disciplined_invoke|]. intros camera_rigs.
  apply Hbind.
  { apply disciplined_mapM. intros o. by apply disciplined_invoke. }
  intros faces.
  apply Hbind; [by apply disciplined_invoke|]. intros solved_floor_surface.
  split; [apply shaped_solver_tail | apply left_by_solver_tail].
Qed.

End Discipline.

(** ** The scene classifier *)

Section Classifier.

Context {Token : Type} (host : Host (Token := Token)).
Implicit Types w : World (Token := Token).

Lemma get_tags_query tags_of o w :
  tag_lookup_reports host tags_of →
  get_tags host o w
  = (mkWorld (scene w) (calls w ++ [lookup_returned o]) (log w),
     Ok (tags_of (scene w) o)).
Proof. intros Hq. unfold get_tags, invoke. by rewrite Hq. Qed.

Lemma filterM_tags_query tags_of (g : list Tag → bool) (p : Obj → M bool) l :
  tag_lookup_reports host tags_of →
  (∀ o, p o = (tags <- get_tags host o ;; ret (g tags))) →
  ∀ w, filterM p l w
       = (mkWorld (scene w) (calls w ++ map lookup_returned l) (log w),
          Ok (filter (fun o => g (tags_of (scene w) o)) l)).
Proof.
  intros Hq Hp. induction l as [|x l IH]; intros w; simpl.
  - unfold ret. by rewrite app_nil_r, world_eta.
  - rewrite bind_run, Hp, bind_run, (get_tags_query tags_of _ _ Hq).
    unfold ret at 1. rewrite bind_run, IH. simpl. unfold ret.
    rewrite <- (assoc_L (++)). simpl.
    destruct (g _) eqn:E.
    + rewrite filter_cons_True by (by rewrite E). done.
    + rewrite filter_cons_False by (rewrite E; exact id). done.
Qed.

Lemma partitionM_tags_query tags_of (g : list Tag → bool) (p : Obj → M bool) l :
  tag_lookup_reports host tags_of →
  (∀ o, p o = (tags <- get_tags host o ;; ret (g tags))) →
  ∀ w, partitionM p l w
       = (mkWorld (scene w) (calls w ++ map lookup_returned l) (log w),
          Ok (filter (fun o => g (tags_of (scene w) o)) l,
              filter (fun o => negb (g (tags_of (scene w) o))) l)).
Proof.
  intros Hq Hp. induction l as [|x l IH]; intros w; simpl.
  - unfold ret. by rewrite app_nil_r, world_eta.
  - rewrite bind_run, Hp, bind_run, (get_tags_query tags_of _ _ Hq).
    unfold ret at 1. rewrite bind_run, IH. simpl. unfold ret.
    rewrite <- (assoc_L (++)). simpl.
    destruct (g _) eqn:E.
    + rewrite filter_cons_True by (by rewrite E).
      rewrite (filter_cons_False (fun o => negb _)) by (rewrite E; exact id). done.
    + rewrite filter_cons_False by (rewrite E; exact id).
      rewrite (filter_cons_True (fun o => negb _)) by (by rewrite E). done.
Qed.

(** The run of the classifier when the tag lookup is a query. *)
Lemma reconstruct_scene_vars_query tags_of w :
  tag_lookup_reports host tags_of →
  let s := scene w in
  let lookups := map lookup_returned (mesh_objects s) in
  let rooms := filter (fun o => room_tagged (tags_of s o)) (mesh_objects s) in
  let others := filter (fun o => negb (room_tagged (tags_of s o))) (mesh_objects s) in
  ∃ msg,
    reconstruct_scene_vars host w
    = (mkWorld s (calls w ++ lookups ++ lookups) (log w ++ [msg]),
       Ok (rooms, others, rooms ++ others)).
Proof.
  intros Hq. simpl. eexists. unfold reconstruct_scene_vars, bpy_data_objects.
  rewrite !bind_run. unfold get_scene, ret at 1. simpl.
  rewrite bind_run, (filterM_tags_query tags_of room_tagged) by done.
  rewrite bind_run.
  rewrite (filterM_tags_query tags_of (fun t => negb (room_tagged t))) by done.
  rewrite bind_run. unfold logger_info, ret. simpl.
  rewrite <- (assoc_L (++)). reflexivity.
Qed.

(** The run of the single-pass reference when the tag lookup is a query. *)
Lemma classify_single_pass_query tags_of w :
  tag_lookup_reports host tags_of →
  let s := scene w in
  let lookups := map lookup_returned (mesh_objects s) in
  let rooms := filter (fun o => room_tagged (tags_of s o)) (mesh_objects s) in
  let others := filter (fun o => negb (room_tagged (tags_of s o))) (mesh_objects s) in
  ∃ msg,
    classify_single_pass host w
    = (mkWorld s (calls w ++ lookups) (log w ++ [msg]),
       Ok (rooms, others, rooms ++ others)).
Proof.
  intros Hq. simpl. eexists. unfold classify_single_pass, bpy_data_objects.
  rewrite !bind_run. unfold get_scene, ret at 1. simpl.
  rewrite bind_run, (partitionM_tags_query tags_of room_tagged) by done.
  rewrite bind_run. unfold logger_info, ret. simpl. reflexivity.
Qed.

Lemma room_tagged_spec tags : room_tagged tags ↔ Semantics_Room ∈ tags.
Proof. apply bool_decide_spec. Qed.

(** C2. When the tag lookup is a query, the classifier returns two
    partitions of the mesh objects: an object is in [rooms] exactly when it
    is a mesh object for which the lookup reports the Room tag, in [others]
    exactly when it is a mesh object without it, never in both, and the two
    together are a rearrangement of the mesh objects (nothing is duplicated,
    nothing is left out). *)
Theorem reconstruct_scene_vars_partition tags_of w :
  tag_lookup_reports host tags_of →
  ∃ rooms others,
    snd (reconstruct_scene_vars host w) = Ok (rooms, others, rooms ++ others) ∧
    (∀ o, o ∈ rooms ↔
          o ∈ mesh_objects (scene w) ∧ Semantics_Room ∈ tags_of (scene w) o) ∧
    (∀ o, o ∈ others ↔
          o ∈ mesh_objects (scene w) ∧ Semantics_Room ∉ tags_of (scene w) o) ∧
    (∀ o, ¬ (o ∈ rooms ∧ o ∈ others)) ∧
    rooms ++ others ≡ₚ mesh_objects (scene w).
Proof.
  intros Hq. destruct (reconstruct_scene_vars_query tags_of w Hq) as [msg E].
  simpl in E. rewrite E. simpl. do 2 eexists. split; [reflexivity|].
  assert (Hrooms : ∀ o,
    o ∈ filter (fun o => room_tagged (tags_of (scene w) o)) (mesh_objects (scene w))
    ↔ o ∈ mesh_objects (scene w) ∧ Semantics_Room ∈ tags_of (scene w) o).
  { intros o. rewrite list_elem_of_filter, room_tagged_spec. tauto. }
  assert (Hothers : ∀ o,
    o ∈ filter (fun o => negb (room_tagged (tags_of (scene w) o)))
          (mesh_objects (scene w))
    ↔ o ∈ mesh_objects (scene w) ∧ Semantics_Room ∉ tags_of (scene w) o).
  { intros o. rewrite list_elem_of_filter, negb_True, room_tagged_spec. tauto. }
  split; [done|]. split; [done|]. split.
  - intros o [Hr Ho]. apply Hrooms in Hr. apply Hothers in Ho. tauto.
  - rewrite (list_filter_iff (fun o => negb (room_tagged (tags_of (scene w) o)))
               (fun o => ¬ room_tagged (tags_of (scene w) o)))
      by (intros; apply negb_True).
    apply filter_app_complement.
Qed.

(** C6. Whenever the classifier returns, its third list is the first
    followed by the second, and each of the two lists the mesh objects it
    holds in the enumeration order of the scene. *)
Theorem reconstruct_scene_vars_combined w w' rooms others combined :
  reconstruct_scene_vars host w = (w', Ok (rooms, others, combined)) →
  combined = rooms ++ others ∧
  rooms `sublist_of` mesh_objects (scene w) ∧
  others `sublist_of` mesh_objects (scene w) ∧
  mesh_objects (scene w) `sublist_of` objects (scene w).
Proof.
  unfold reconstruct_scene_vars, bpy_data_objects.
  rewrite !bind_run. unfold get_scene, ret at 1. simpl. rewrite bind_run.
  destruct (filterM (has_room_tag host) _ w) as [w1 [r|e]] eqn:E1; [|done].
  rewrite bind_run.
  destruct (filterM (lacks_room_tag host) _ w1) as [w2 [n|e]] eqn:E2; [|done].
  rewrite bind_run. unfold logger_info, ret. simpl. intros [= _ <- <- <-].
  apply filterM_sublist in E1, E2.
  repeat split; try done. apply sublist_filter.
Qed.

(** C10. When the tag lookup does not change the scene, neither does the
    classifier, whether it returns or raises. *)
Theorem reconstruct_scene_vars_read_only w :
  tag_lookup_read_only host →
  scene (fst (reconstruct_scene_vars host w)) = scene w.
Proof.
  intros Hro.
  assert (Hget : ∀ o w0, scene (fst (get_tags host o w0)) = scene w0).
  { intros o w0. unfold get_tags, invoke. specialize (Hro o (scene w0)).
    by destruct (tagging_get_tags host o (scene w0)). }
  assert (Hhas : ∀ o w0, scene (fst (has_room_tag host o w0)) = scene w0).
  { intros o w0. unfold has_room_tag. rewrite bind_run. specialize (Hget o w0).
    by destruct (get_tags host o w0) as [? [?|?]]. }
  assert (Hlacks : ∀ o w0, scene (fst (lacks_room_tag host o w0)) = scene w0).
  { intros o w0. unfold lacks_room_tag. rewrite bind_run. specialize (Hget o w0).
    by destruct (get_tags host o w0) as [? [?|?]]. }
  unfold reconstruct_scene_vars, bpy_data_objects.
  rewrite !bind_run. unfold get_scene, ret at 1. simpl. rewrite bind_run.
  pose proof (filterM_scene (has_room_tag host) (mesh_objects (scene w)) Hhas w) as H1.
  unfold mesh_objects in H1.
  destruct (filterM (has_room_tag host) _ w) as [w1 [r|e]]; [|done].
  rewrite bind_run.
  pose proof (filterM_scene (lacks_room_tag host) (mesh_objects (scene w)) Hlacks w1) as H2.
  unfold mesh_objects in H2.
  destruct (filterM (lacks_room_tag host) _ w1) as [w2 [n|e]]; simpl in *; congruence.
Qed.

Lemma lookups_app o (t1 t2 : list (Event (Token := Token))) :
  lookups o (t1 ++ t2) = lookups o t1 + lookups o t2.
Proof. unfold lookups. by rewrite filter_app, length_app. Qed.

Lemma lookups_returned_notin o l :
  o ∉ l → lookups o (map (lookup_returned (Token := Token)) l) = 0.
Proof.
  unfold lookups. induction l as [|x l IH]; intros Hnotin; [done|].
  apply not_elem_of_cons in Hnotin as [Hne Hnotin]. simpl.
  rewrite filter_cons_False.
  - by apply IH.
  - unfold is_lookup_of. simpl. rewrite bool_decide_spec. congruence.
Qed.

Lemma lookups_returned_once o l :
  NoDup l → o ∈ l → lookups o (map (lookup_returned (Token := Token)) l) = 1.
Proof.
  induction l as [|x l IH]; intros Hnd Hin; [by apply elem_of_nil in Hin|].
  apply NoDup_cons in Hnd as [Hx Hnd].
  change (map lookup_returned (x :: l))
    with ([lookup_returned (Token := Token) x] ++ map lookup_returned l).
  rewrite lookups_app. apply elem_of_cons in Hin as [->|Hin].
  - rewrite lookups_returned_notin by done. unfold lookups.
    rewrite filter_cons_True; [done|].
    unfold is_lookup_of. simpl. by rewrite bool_decide_spec.
  - rewrite IH by done. unfold lookups. rewrite filter_cons_False; [done|].
    unfold is_lookup_of. simpl. rewrite bool_decide_spec. intros ->. done.
Qed.

(** C3, as the code has it. When the tag lookup is a query, the classifier
    makes two passes over the mesh objects and queries the tags of each
    object in both, twice as often as the single-pass reference, which
    queries each mesh object of a duplicate-free scene exactly once; the
    two return the same lists and leave the same scene and log. *)
Theorem reconstruct_scene_vars_two_passes tags_of w :
  tag_lookup_reports host tags_of →
  let pass := map lookup_returned (mesh_objects (scene w)) in
  trace_of (reconstruct_scene_vars host) w = pass ++ pass ∧
  trace_of (classify_single_pass host) w = pass ∧
  (∀ o, lookups o (trace_of (reconstruct_scene_vars host) w)
        = 2 * lookups o (trace_of (classify_single_pass host) w)) ∧
  (∀ o, NoDup (objects (scene w)) → o ∈ mesh_objects (scene w) →
        lookups o (trace_of (classify_single_pass host) w) = 1 ∧
        lookups o (trace_of (reconstruct_scene_vars host) w) = 2) ∧
  snd (reconstruct_scene_vars host w) = snd (classify_single_pass host w) ∧
  scene (fst (reconstruct_scene_vars host w))
  = scene (fst (classify_single_pass host w)) ∧
  log (fst (reconstruct_scene_vars host w))
  = log (fst (classify_single_pass host w)).
Proof.
  intros Hq pass.
  destruct (reconstruct_scene_vars_query tags_of w Hq) as [msg E].
  destruct (classify_single_pass_query tags_of w Hq) as [msg' E'].
  simpl in E, E'. fold pass in E, E'.
  assert (Hmsg : msg = msg').
  { revert E E'. unfold reconstruct_scene_vars, classify_single_pass, bpy_data_objects.
    rewrite !bind_run. unfold get_scene, ret at 1. simpl. rewrite !bind_run.
    rewrite (filterM_tags_query tags_of room_tagged) by done.
    rewrite (partitionM_tags_query tags_of room_tagged) by done.
    rewrite !bind_run.
    rewrite (filterM_tags_query tags_of (fun t => negb (room_tagged t))) by done.
    rewrite !bind_run. unfold logger_info, ret. simpl.
    intros [= _ Hl] [= Hl']. apply app_inv_head in Hl, Hl'.
    congruence. }
  subst msg'.
  assert (T : trace_of (reconstruct_scene_vars host) w = pass ++ pass).
  { apply trace_of_app. by rewrite E. }
  assert (T' : trace_of (classify_single_pass host) w = pass).
  { apply trace_of_app. by rewrite E'. }
  rewrite T, T', E, E'. simpl. repeat split; try done.
  - intros o. rewrite lookups_app. lia.
  - apply lookups_returned_once; [by apply NoDup_filter | done].
  - unfold pass. rewrite lookups_app, !lookups_returned_once;
      [done | by apply NoDup_filter | done ..].
Qed.

End Classifier.

(** ** The workflow *)

Section WorkflowProperties.

Context {Token : Type} (host : Host (Token := Token)).
Implicit Types w : World (Token := Token).

Lemma Path_parent_div p name : Path_parent (Path_div p name) = p.
Proof.
  destruct p as [root parts]. unfold Path_parent, Path_div. simpl.
  by rewrite removelast_last.
Qed.

Lemma Path_name_div p name : Path_name (Path_div p name) = name.
Proof. unfold Path_name, Path_div. simpl. by rewrite last_snoc. Qed.

(** C1, as the code has it. When the solver call returns, the deletion of
    the temporary floor surface is the next call; when the solver call
    raises, the run ends with its error, no deletion is called, and the
    scene at the end of the run is the scene the raising solver call left:
    the workflow removes nothing after it. *)
Theorem re_pose_cameras_floor_deleted args w rigs tok floor nonroom outcome :
  mkEvent (CallComputePoses rigs tok floor nonroom) outcome
    ∈ trace_of (re_pose_cameras host args) w →
  match outcome with
  | Returned =>
      ∃ pre outcome' post,
        trace_of (re_pose_cameras host args) w
        = pre ++ [mkEvent (CallComputePoses rigs tok floor nonroom) Returned;
                  mkEvent (CallDelete floor) outcome'] ++ post
  | Raised err =>
      snd (re_pose_cameras host args w) = Raise err ∧
      (∀ o outcome', mkEvent (CallDelete o) outcome'
                       ∉ trace_of (re_pose_cameras host args) w) ∧
      ∃ s, cam_traj_compute_poses host rigs tok floor nonroom s
           = (scene (fst (re_pose_cameras host args w)), Raise err)
  end.
Proof.
  intros Hin.
  assert (Hleft : ∀ err, outcome = Raised err →
    ∃ s, cam_traj_compute_poses host rigs tok floor nonroom s
         = (scene (fst (re_pose_cameras host args w)), Raise err)).
  { intros err ->. by apply (re_pose_cameras_left_by_solver host args). }
  revert Hin Hleft.
  destruct (re_pose_cameras_trace host args w) as [_ (pre & tail & -> & Hpre & Hs)].
  rewrite Forall_forall in Hpre.
  intros Hin Hleft. apply elem_of_app in Hin as [Hin|Hin].
  { exfalso. exact (Hpre _ Hin). }
  destruct Hs as [(-> & _)|[_ Htail]]; [by apply elem_of_nil in Hin|].
  inversion Htail as [? ? ? ? err Ht Hr|? ? ? ? err Ht Hr|? ? ? ? err Ht Hr|? ? ? ? Ht Hr];
    subst tail; clear Htail;
    rewrite ?elem_of_cons, elem_of_nil in Hin; destruct_or!; simplify_eq.
  - split; [done|]. split; [|by apply Hleft].
    intros o outcome' Hd. apply elem_of_app in Hd as [Hd|Hd].
    + exact (Hpre _ Hd).
    + apply list_elem_of_singleton in Hd. discriminate.
  - by exists pre, (Raised err), [].
  - by eexists pre, Returned, [_].
  - by eexists pre, Returned, [_].
Qed.

(** C7. When a placement call (preprocessing, rig spawning, face
    extraction, join or trajectory solving) raises, the run ends with that
    error, the failing call is the last call made, every call before it
    returned, and no call saves the scene. *)
Theorem re_pose_cameras_placement_failure args w c err :
  is_placement_call c →
  mkEvent c (Raised err) ∈ trace_of (re_pose_cameras host args) w →
  snd (re_pose_cameras host args w) = Raise err ∧
  (∃ pre, trace_of (re_pose_cameras host args) w = pre ++ [mkEvent c (Raised err)] ∧
          Forall returned pre) ∧
  (∀ e, e ∈ trace_of (re_pose_cameras host args) w → ¬ is_save_call (ev_call e)).
Proof.
  intros Hc.
  destruct (re_pose_cameras_trace host args w) as [_ (pre & tail & -> & Hpre & Hs)].
  rewrite Forall_forall in Hpre.
  assert (Hnosave : ∀ e, e ∈ pre → ¬ is_save_call (ev_call e)).
  { intros e He Hsave. apply Hpre in He. by destruct (ev_call e). }
  intros Hin. destruct Hs as [(-> & [err' Hr] & Ha)|[Hret Htail]].
  - rewrite Hr in *. rewrite app_nil_r in *. destruct Ha as [Ha|(pre' & c' & -> & Ha)].
    + rewrite Forall_forall in Ha. by apply Ha, raised_not_returned in Hin.
    + apply elem_of_app in Hin as [Hin|Hin].
      * rewrite Forall_forall in Ha. by apply Ha, raised_not_returned in Hin.
      * apply list_elem_of_singleton in Hin. injection Hin as -> ->.
        split; [done|]. split; [by exists pre'|]. done.
  - rewrite Forall_forall in Hret. apply elem_of_app in Hin as [Hin|Hin].
    { by apply Hret, raised_not_returned in Hin. }
    inversion Htail as [? ? ? ? err' Ht Hr|? ? ? ? err' Ht Hr|? ? ? ? err' Ht Hr|? ? ? ? Ht Hr];
      subst tail; clear Htail;
      rewrite ?elem_of_cons, elem_of_nil in Hin; destruct_or!; simplify_eq; try done.
    split; [done|]. split; [exists pre; split; [done | by apply Forall_forall]|].
    intros e He. apply elem_of_app in He as [He|He]; [by apply Hnosave|].
    apply list_elem_of_singleton in He. subst e. exact id.
Qed.

(** C9. When the run succeeds, its last call saves the scene, and it is the
    only one that does; the path saved to lies in the output folder and its
    name is the stem of the input file followed by the fixed suffix. *)
Theorem re_pose_cameras_saves args w :
  snd (re_pose_cameras host args w) = Ok tt →
  (∃ pre, trace_of (re_pose_cameras host args) w
          = pre ++ [mkEvent (CallSaveAsMainfile (Path_str (saved_path args))) Returned] ∧
          Forall (fun e => ¬ is_save_call (ev_call e)) pre) ∧
  Path_parent (saved_path args) = output_folder args ∧
  Path_name (saved_path args)
  = Path_stem (input_blend args) +:+ "_with_new_cameras.blend".
Proof.
  intros Hok.
  destruct (re_pose_cameras_trace host args w) as [_ (pre & tail & -> & Hpre & Hs)].
  rewrite Hok in Hs. split.
  - destruct Hs as [(_ & [err' Hr] & _)|[Hret Htail]]; [done|].
    inversion Htail; subst; clear Htail.
    eexists (pre ++ [_; _]). split; [by rewrite <- (assoc_L (++))|].
    apply Forall_app. split.
    + eapply Forall_impl; [exact Hpre|]. simpl. intros e He Hsave.
      by destruct (ev_call e).
    + repeat constructor; simpl; tauto.
  - unfold saved_path. by rewrite Path_parent_div, Path_name_div.
Qed.

Ltac flatten_calls := repeat first [rewrite <- (assoc_L (++)) | progress simpl].

Lemma delete_existing_camera_rigs_run w :
  ∃ msgs, delete_existing_camera_rigs w
          = (mkWorld (cleaned (scene w)) (calls w) (log w ++ msgs), Ok tt).
Proof.
  unfold cleaned, delete_existing_camera_rigs, bind, get_scene. simpl.
  destruct (decide ("camera_rigs" ∈ dom (collections (scene w)))) as [Hin|Hout].
  - apply elem_of_dom in Hin as [c Hc]. rewrite Hc. simpl.
    destruct c as [|r rigs]; simpl; eauto.
  - simpl. eauto.
Qed.

Lemma filter_none {A} (P : A → Prop) `{!∀ x, Decision (P x)} (l : list A) :
  (∀ x, x ∈ l → ¬ P x) → filter P l = [].
Proof.
  induction l as [|x l IH]; intros Hl; [done|].
  rewrite filter_cons_False by (apply Hl; by left).
  apply IH. intros y Hy. apply Hl. by right.
Qed.

Lemma filter_all {A} (P : A → Prop) `{!∀ x, Decision (P x)} (l : list A) :
  (∀ x, x ∈ l → P x) → filter P l = l.
Proof.
  induction l as [|x l IH]; intros Hl; [done|].
  rewrite filter_cons_True by (apply Hl; by left).
  f_equal. apply IH. intros y Hy. apply Hl. by right.
Qed.

(** C8, as the code has it. In a scene without room-tagged mesh objects,
    when the tag lookup is a query and the load, the preprocessing and the
    spawning return: the classifier returns, no face extraction is called
    and the join is called on the empty list.  When that join returns, the
    solver is called with the object it returned and with all the mesh
    objects as non-room objects; when it raises, the run ends with its
    error and the solver is not called. *)
Theorem re_pose_cameras_no_rooms args w tags_of s1 tok s3 rigs s4 joined s5 :
  tag_lookup_reports host tags_of →
  wm_open_mainfile host (Path_str (input_blend args)) (scene w) = (s1, Ok tt) →
  (∀ o, o ∈ mesh_objects (cleaned s1) → Semantics_Room ∉ tags_of (cleaned s1) o) →
  camera_selection_preprocessing host None (mesh_objects (cleaned s1)) (cleaned s1)
  = (s3, Ok tok) →
  spawn_camera_rigs host s3 = (s4, Ok rigs) →
  butil_join_objects host [] s4 = (s5, joined) →
  match joined with
  | Ok floor =>
      ∃ post,
        trace_of (re_pose_cameras host args) w
        = [mkEvent (CallOpenMainfile (Path_str (input_blend args))) Returned]
          ++ map lookup_returned (mesh_objects (cleaned s1))
          ++ map lookup_returned (mesh_objects (cleaned s1))
          ++ [mkEvent (CallPreprocessing None (mesh_objects (cleaned s1))) Returned;
              mkEvent CallSpawnCameraRigs Returned;
              mkEvent (CallJoinObjects []) Returned;
              mkEvent (CallComputePoses rigs tok floor (mesh_objects (cleaned s1)))
                (outcome_of (snd (cam_traj_compute_poses host rigs tok floor
                                    (mesh_objects (cleaned s1)) s5)))]
          ++ post ∧
        Forall (fun e => ¬ before_solver (ev_call e)) post
  | Raise err =>
      snd (re_pose_cameras host args w) = Raise err ∧
      trace_of (re_pose_cameras host args) w
      = [mkEvent (CallOpenMainfile (Path_str (input_blend args))) Returned]
        ++ map lookup_returned (mesh_objects (cleaned s1))
        ++ map lookup_returned (mesh_objects (cleaned s1))
        ++ [mkEvent (CallPreprocessing None (mesh_objects (cleaned s1))) Returned;
            mkEvent CallSpawnCameraRigs Returned;
            mkEvent (CallJoinObjects []) (Raised err)] ∧
      ¬ solver_invoked host args w
  end.
Proof.
  intros Hq Hopen Hnone Hpre Hspawn Hjoin.
  set (mesh := mesh_objects (cleaned s1)) in *.
  unfold solver_invoked, trace_of.
  destruct (re_pose_cameras host args w) as [w' res] eqn:Erun. simpl.
  unfold re_pose_cameras in Erun.
  rewrite bind_run in Erun. unfold logger_info at 1 in Erun. simpl in Erun.
  rewrite bind_run in Erun. unfold open_mainfile, invoke at 1 in Erun. simpl in Erun.
  rewrite Hopen in Erun. simpl in Erun. rewrite bind_run in Erun.
  match type of Erun with context [delete_existing_camera_rigs ?w0] =>
    destruct (delete_existing_camera_rigs_run w0) as [msgs Eclean] end.
  rewrite Eclean in Erun. clear Eclean. simpl in Erun. rewrite bind_run in Erun.
  match type of Erun with context [reconstruct_scene_vars host ?w0] =>
    destruct (reconstruct_scene_vars_query host tags_of w0 Hq) as [msg E] end.
  simpl in E. fold mesh in E. rewrite E in Erun. clear E.
  rewrite (filter_none _ mesh) in Erun
    by (intros o Ho; rewrite room_tagged_spec; by apply Hnone).
  rewrite (filter_all _ mesh) in Erun
    by (intros o Ho; rewrite negb_True, room_tagged_spec; by apply Hnone).
  simpl in Erun. rewrite bind_run in Erun. unfold logger_info at 1 in Erun.
  simpl in Erun.
  rewrite bind_run in Erun. unfold preprocessing, invoke at 1 in Erun. simpl in Erun.
  rewrite Hpre in Erun. simpl in Erun.
  rewrite bind_run in Erun. unfold spawn_rigs, invoke at 1 in Erun. simpl in Erun.
  rewrite Hspawn in Erun. simpl in Erun.
  rewrite bind_run in Erun. unfold ret at 1 in Erun.
  rewrite bind_run in Erun. unfold join_objects, invoke at 1 in Erun. simpl in Erun.
  rewrite Hjoin in Erun. destruct joined as [floor|err]; simpl in Erun.
  - unfold compute_poses, delete, save_as_mainfile, invoke, logger_info, bind in Erun.
    simpl in Erun.
    destruct (cam_traj_compute_poses host rigs tok floor mesh s5)
      as [s6 [[]|err]]; simpl in *.
    2: { injection Erun as <- <-. exists []. simpl.
         split; [flatten_calls; by rewrite drop_app_length | constructor]. }
    destruct (butil_delete host floor s6) as [s7 [[]|err]]; simpl in Erun.
    2: { injection Erun as <- <-. eexists [_]. simpl.
         split; [flatten_calls; by rewrite drop_app_length
                | repeat constructor; exact id]. }
    destruct (wm_save_as_mainfile host _ s7) as [s8 [[]|err]]; simpl in Erun.
    2: { injection Erun as <- <-. eexists [_; _]. simpl.
         split; [flatten_calls; by rewrite drop_app_length
                | repeat constructor; exact id]. }
    injection Erun as <- <-. eexists [_; _]. simpl.
    split; [flatten_calls; by rewrite drop_app_length | repeat constructor; exact id].
  - injection Erun as <- <-. simpl. split; [done|].
    assert (Et : drop (List.length (calls w))
                   (((((calls w
                        ++ [mkEvent (CallOpenMainfile (Path_str (input_blend args)))
                              Returned])
                       ++ map lookup_returned mesh ++ map lookup_returned mesh)
                      ++ [mkEvent (CallPreprocessing None mesh) Returned])
                     ++ [mkEvent CallSpawnCameraRigs Returned])
                    ++ [mkEvent (CallJoinObjects []) (Raised err)])
                 = [mkEvent (CallOpenMainfile (Path_str (input_blend args))) Returned]
                   ++ map lookup_returned mesh ++ map lookup_returned mesh
                   ++ [mkEvent (CallPreprocessing None mesh) Returned;
                       mkEvent CallSpawnCameraRigs Returned;
                       mkEvent (CallJoinObjects []) (Raised err)]).
    { flatten_calls. by rewrite drop_app_length. }
    rewrite Et. split; [done|].
    intros (rigs' & tok' & floor' & nonroom' & outcome & Hin).
    rewrite !elem_of_app, !elem_of_cons, elem_of_nil, !list_elem_of_fmap in Hin.
    destruct_or!; try discriminate; try done;
      destruct Hin as (o & Heq & _); discriminate.
Qed.

End WorkflowProperties.

(** * The properties on the fake collaborator *)

Section Runs_on_the_fake.

Import Fake.

Lemma fake_tag_lookup_reports solver :
  tag_lookup_reports (host files solver) (fun _ => tags_of).
Proof. intros o s. reflexivity. Qed.

Lemma delete_existing_camera_rigs_noop_witness :
  (collections (scene (start yard)) !! "camera_rigs" = None ∨
   collections (scene (start yard)) !! "camera_rigs" = Some []) ∧
  ∃ msg, delete_existing_camera_rigs (start yard)
         = (mkWorld yard [] ([] ++ [msg]), Ok tt).
Proof.
  split.
  - left. reflexivity.
  - apply (delete_existing_camera_rigs_noop (start yard)). left. reflexivity.
Defined.

Lemma delete_existing_camera_rigs_exact_witness :
  collections (scene (start house)) !! "camera_rigs" = Some old_rigs ∧
  ∃ w', delete_existing_camera_rigs (start house) = (w', Ok tt) ∧
        objects (scene w') = filter (fun o => o ∉ old_rigs) (objects house) ∧
        (∀ o, o ∈ objects (scene w') ↔ o ∈ objects house ∧ o ∉ old_rigs) ∧
        (NoDup (objects house) → NoDup old_rigs → old_rigs ⊆ objects house →
         List.length (objects (scene w')) + 2 = 11) ∧
        collections (scene w') !! "camera_rigs" = Some [] ∧
        calls w' = [].
Proof.
  split.
  - reflexivity.
  - apply (delete_existing_camera_rigs_exact (start house) old_rigs). reflexivity.
Defined.

Lemma reconstruct_scene_vars_partition_witness :
  tag_lookup_reports (host files solver_ok) (fun _ => tags_of) ∧
  ∃ rooms others,
    snd (reconstruct_scene_vars (host files solver_ok) (start house))
    = Ok (rooms, others, rooms ++ others) ∧
    (∀ o, o ∈ rooms ↔ o ∈ mesh_objects house ∧ Semantics_Room ∈ tags_of o) ∧
    (∀ o, o ∈ others ↔ o ∈ mesh_objects house ∧ Semantics_Room ∉ tags_of o) ∧
    (∀ o, ¬ (o ∈ rooms ∧ o ∈ others)) ∧
    rooms ++ others ≡ₚ mesh_objects house.
Proof.
  split.
  - apply fake_tag_lookup_reports.
  - apply (reconstruct_scene_vars_partition (host files solver_ok)
             (fun _ => tags_of) (start house)).
    apply fake_tag_lookup_reports.
Defined.

Lemma reconstruct_scene_vars_two_passes_witness :
  tag_lookup_reports (host files solver_ok) (fun _ => tags_of) ∧
  trace_of (reconstruct_scene_vars (host files solver_ok)) (start bare)
  = [lookup_returned (mesh "room.0"); lookup_returned (mesh "room.0")] ∧
  trace_of (classify_single_pass (host files solver_ok)) (start bare)
  = [lookup_returned (mesh "room.0")] ∧
  snd (reconstruct_scene_vars (host files solver_ok) (start bare))
  = snd (classify_single_pass (host files solver_ok) (start bare)).
Proof.
  split; [apply fake_tag_lookup_reports|].
  pose proof (reconstruct_scene_vars_two_passes (host files solver_ok)
                (fun _ => tags_of) (start bare) (fake_tag_lookup_reports _))
    as (H1 & H2 & _ & _ & H3 & _).
  split; [exact H1|]. split; [exact H2 | exact H3].
Defined.

(** C3, as stated, fails: on a scene with one room the classifier queries
    the tags of that room twice, and its run differs from the run of the
    single-pass reference. *)
Lemma reconstruct_scene_vars_lookups_twice :
  ¬ at_most_one_lookup (host files solver_ok) (start bare) ∧
  lookups (mesh "room.0")
    (trace_of (reconstruct_scene_vars (host files solver_ok)) (start bare)) = 2 ∧
  reconstruct_scene_vars (host files solver_ok) (start bare)
  ≠ classify_single_pass (host files solver_ok) (start bare).
Proof.
  split; [|split].
  - intros H. specialize (H (mesh "room.0")). vm_compute in H. lia.
  - vm_compute. reflexivity.
  - intros E. apply (f_equal (fun x => List.length (calls (fst x)))) in E.
    vm_compute in E. discriminate.
Qed.

Lemma reconstruct_scene_vars_combined_witness :
  reconstruct_scene_vars (host files solver_ok) (start house)
  = (fst (reconstruct_scene_vars (host files solver_ok) (start house)),
     Ok ([mesh "room.0"; mesh "room.1"; mesh "room.2"],
         [mesh "chair"; mesh "table"; mesh "lamp"; mesh "sofa"; mesh "rug"],
         [mesh "room.0"; mesh "room.1"; mesh "room.2";
          mesh "chair"; mesh "table"; mesh "lamp"; mesh "sofa"; mesh "rug"])) ∧
  [mesh "room.0"; mesh "room.1"; mesh "room.2";
   mesh "chair"; mesh "table"; mesh "lamp"; mesh "sofa"; mesh "rug"]
  = [mesh "room.0"; mesh "room.1"; mesh "room.2"]
    ++ [mesh "chair"; mesh "table"; mesh "lamp"; mesh "sofa"; mesh "rug"] ∧
  [mesh "room.0"; mesh "room.1"; mesh "room.2"] `sublist_of` mesh_objects house ∧
  [mesh "chair"; mesh "table"; mesh "lamp"; mesh "sofa"; mesh "rug"]
    `sublist_of` mesh_objects house ∧
  mesh_objects house `sublist_of` objects house.
Proof.
  assert (E : reconstruct_scene_vars (host files solver_ok) (start house)
    = (fst (reconstruct_scene_vars (host files solver_ok) (start house)),
       Ok ([mesh "room.0"; mesh "room.1"; mesh "room.2"],
           [mesh "chair"; mesh "table"; mesh "lamp"; mesh "sofa"; mesh "rug"],
           [mesh "room.0"; mesh "room.1"; mesh "room.2";
            mesh "chair"; mesh "table"; mesh "lamp"; mesh "sofa"; mesh "rug"])))
    by (vm_compute; reflexivity).
  split; [exact E|].
  exact (reconstruct_scene_vars_combined (host files solver_ok) (start house) _ _ _ _ E).
Defined.

Lemma reconstruct_scene_vars_read_only_witness :
  tag_lookup_read_only (host files solver_ok) ∧
  scene (fst (reconstruct_scene_vars (host files solver_ok) (start house))) = house.
Proof.
  assert (H : tag_lookup_read_only (host files solver_ok)) by (intros o s; reflexivity).
  split; [exact H|].
  exact (reconstruct_scene_vars_read_only (host files solver_ok) (start house) H).
Defined.

Lemma re_pose_cameras_floor_deleted_witness :
  mkEvent (CallComputePoses [rig] 1 floor []) Returned
    ∈ trace_of (re_pose_cameras (host files solver_ok) (args "bare.blend"))
        (start empty_scene) ∧
  ∃ pre outcome' post,
    trace_of (re_pose_cameras (host files solver_ok) (args "bare.blend"))
      (start empty_scene)
    = pre ++ [mkEvent (CallComputePoses [rig] 1 floor []) Returned;
              mkEvent (CallDelete floor) outcome'] ++ post.
Proof.
  assert (H : mkEvent (CallComputePoses [rig] 1 floor []) Returned
    ∈ trace_of (re_pose_cameras (host files solver_ok) (args "bare.blend"))
        (start empty_scene)).
  { vm_compute. repeat constructor. }
  split; [exact H|].
  exact (re_pose_cameras_floor_deleted (host files solver_ok) (args "bare.blend")
           (start empty_scene) [rig] 1 floor [] Returned H).
Defined.

(** C1, as stated, fails: when the solver raises, the run ends with its
    error, no deletion is called, and the temporary floor surface stays in
    the scene. *)
Lemma re_pose_cameras_floor_leaked :
  ¬ floor_deleted_regardless (host files solver_fails) (args "bare.blend")
      (start empty_scene) ∧
  snd (re_pose_cameras (host files solver_fails) (args "bare.blend")
         (start empty_scene))
  = Raise "ValueError: no valid camera pose found" ∧
  floor ∈ objects (scene (fst (re_pose_cameras (host files solver_fails)
                                 (args "bare.blend") (start empty_scene)))).
Proof.
  split; [|split].
  - intros H.
    destruct (H [rig] 1 floor [] (Raised "ValueError: no valid camera pose found"))
      as [outcome' Hd].
    + vm_compute. repeat constructor.
    + vm_compute in Hd.
      repeat (apply elem_of_cons in Hd as [Hd|Hd]; [discriminate|]).
      by apply elem_of_nil in Hd.
  - vm_compute. reflexivity.
  - vm_compute. repeat constructor.
Qed.

Lemma re_pose_cameras_placement_failure_witness :
  is_placement_call (CallComputePoses (Token := nat) [rig] 1 floor []) ∧
  mkEvent (CallComputePoses [rig] 1 floor [])
    (Raised "ValueError: no valid camera pose found")
    ∈ trace_of (re_pose_cameras (host files solver_fails) (args "bare.blend"))
        (start empty_scene) ∧
  snd (re_pose_cameras (host files solver_fails) (args "bare.blend")
         (start empty_scene))
  = Raise "ValueError: no valid camera pose found" ∧
  (∀ e, e ∈ trace_of (re_pose_cameras (host files solver_fails) (args "bare.blend"))
              (start empty_scene) →
        ¬ is_save_call (ev_call e)).
Proof.
  assert (H : mkEvent (CallComputePoses [rig] 1 floor [])
                (Raised "ValueError: no valid camera pose found")
    ∈ trace_of (re_pose_cameras (host files solver_fails) (args "bare.blend"))
        (start empty_scene)).
  { vm_compute. repeat constructor. }
  split; [exact I|]. split; [exact H|].
  destruct (re_pose_cameras_placement_failure (host files solver_fails)
              (args "bare.blend") (start empty_scene)
              (CallComputePoses [rig] 1 floor [])
              "ValueError: no valid camera pose found" I H) as (Hr & _ & Hs).
  split; [exact Hr | exact Hs].
Defined.

Lemma re_pose_cameras_saves_witness :
  snd (re_pose_cameras (host files solver_ok) (args "house.blend") (start empty_scene))
  = Ok tt ∧
  (∃ pre, trace_of (re_pose_cameras (host files solver_ok) (args "house.blend"))
            (start empty_scene)
          = pre ++ [mkEvent (CallSaveAsMainfile
                               "outputs/posed/house_with_new_cameras.blend")
                      Returned] ∧
          Forall (fun e => ¬ is_save_call (ev_call e)) pre) ∧
  Path_parent (saved_path (args "house.blend")) = mkPath "" ["outputs"; "posed"] ∧
  Path_name (saved_path (args "house.blend")) = "house_with_new_cameras.blend".
Proof.
  assert (H : snd (re_pose_cameras (host files solver_ok) (args "house.blend")
                     (start empty_scene)) = Ok tt) by (vm_compute; reflexivity).
  split; [exact H|].
  exact (re_pose_cameras_saves (host files solver_ok) (args "house.blend")
           (start empty_scene) H).
Defined.

Lemma yard_has_no_room :
  ∀ o, o ∈ mesh_objects (cleaned yard) → Semantics_Room ∉ tags_of o.
Proof.
  intros o Ho. vm_compute in Ho.
  repeat (apply elem_of_cons in Ho as [->|Ho]);
    [..|by apply elem_of_nil in Ho];
    vm_compute; intros Hin;
    repeat (apply elem_of_cons in Hin as [Hin|Hin]; [discriminate|]);
    by apply elem_of_nil in Hin.
Defined.

Lemma re_pose_cameras_no_rooms_witness :
  ∃ post,
    trace_of (re_pose_cameras (host files solver_ok) (args "yard.blend"))
      (start empty_scene)
    = [mkEvent (CallOpenMainfile "/scenes/yard.blend") Returned]
      ++ map lookup_returned (mesh_objects yard)
      ++ map lookup_returned (mesh_objects yard)
      ++ [mkEvent (CallPreprocessing None (mesh_objects yard)) Returned;
          mkEvent CallSpawnCameraRigs Returned;
          mkEvent (CallJoinObjects []) Returned;
          mkEvent (CallComputePoses [rig] 4 floor (mesh_objects yard)) Returned]
      ++ post ∧
    Forall (fun e => ¬ before_solver (ev_call e)) post.
Proof.
  assert (Hopen : wm_open_mainfile (host files solver_ok)
                    (Path_str (input_blend (args "yard.blend")))
                    (scene (start empty_scene)) = (yard, Ok tt))
    by (vm_compute; reflexivity).
  assert (Hpre : camera_selection_preprocessing (host files solver_ok) None
                   (mesh_objects (cleaned yard)) (cleaned yard) = (yard, Ok 4))
    by (vm_compute; reflexivity).
  assert (Hspawn : spawn_camera_rigs (host files solver_ok) yard
                   = (yard_with_rig, Ok [rig])) by (vm_compute; reflexivity).
  assert (Hjoin : butil_join_objects (host files solver_ok) [] yard_with_rig
                  = (add_object floor yard_with_rig, Ok floor))
    by (vm_compute; reflexivity).
  exact (re_pose_cameras_no_rooms (host files solver_ok) (args "yard.blend")
           (start empty_scene) (fun _ => tags_of) yard 4 yard [rig]
           yard_with_rig (Ok floor) (add_object floor yard_with_rig)
           (fake_tag_lookup_reports solver_ok) Hopen yard_has_no_room
           Hpre Hspawn Hjoin).
Defined.

(** C8, as stated, fails: in a scene without rooms, with a join that raises
    on the empty list, the run ends with the error of the join at the
    floor-surface step and the solver is not invoked. *)
Lemma re_pose_cameras_no_rooms_join_raises :
  (∀ o, o ∈ mesh_objects (cleaned yard) → Semantics_Room ∉ tags_of o) ∧
  snd (re_pose_cameras host_join_raises (args "yard.blend") (start empty_scene))
  = Raise "IndexError: list index out of range" ∧
  mkEvent (CallJoinObjects []) (Raised "IndexError: list index out of range")
    ∈ trace_of (re_pose_cameras host_join_raises (args "yard.blend"))
        (start empty_scene) ∧
  ¬ solver_invoked host_join_raises (args "yard.blend") (start empty_scene).
Proof.
  split; [exact yard_has_no_room|]. split; [vm_compute; reflexivity|].
  split; [vm_compute; repeat constructor|].
  intros (rigs' & tok' & floor' & nonroom' & outcome & Hin).
  vm_compute in Hin.
  repeat (apply elem_of_cons in Hin as [Hin|Hin]; [discriminate|]).
  by apply elem_of_nil in Hin.
Qed.

End Runs_on_the_fake.

(** * Further properties of the code *)

(** ** The lookups of the classifier, for any tag-lookup collaborator *)

Section ClassifierCalls.

Context {Token : Type} (host : Host (Token := Token)).
Implicit Types w : World (Token := Token).

(** One pass of a comprehension over the tags: the lookups are made in the
    order of the list; the pass returns a subsequence after a lookup of
    every object, or it stops at the first lookup that raises. *)
Lemma filterM_tags_calls (g : list Tag → bool) (p : Obj → M bool) l :
  (∀ o, p o = (tags <- get_tags host o ;; ret (g tags))) →
  ∀ w, ∃ t,
    calls (fst (filterM p l w)) = calls w ++ t ∧
    match snd (filterM p l w) with
    | Ok r => t = map lookup_returned l ∧ r `sublist_of` l
    | Raise err =>
        ∃ seen o rest, l = seen ++ o :: rest ∧
                       t = map lookup_returned seen ++ [lookup_raised o err]
    end.
Proof.
  intros Hp. induction l as [|x l IH]; intros w; simpl.
  - exists []. by rewrite app_nil_r.
  - destruct ((b <- p x ;; r <- filterM p l ;; ret (if b then x :: r else r)) w)
      as [w' res] eqn:Erun. simpl.
    rewrite bind_run, Hp, bind_run in Erun. unfold get_tags, invoke in Erun.
    destruct (tagging_get_tags host x (scene w)) as [s1 [tags|err]]; simpl in Erun.
    + unfold ret at 1 in Erun. rewrite bind_run in Erun.
      destruct (IH (mkWorld s1 (calls w ++ [mkEvent (CallGetTags x) Returned]) (log w)))
        as (t & E & Ht).
      destruct (filterM p l _) as [w2 [r|err]]; simpl in *.
      * unfold ret in Erun. injection Erun as <- <-. destruct Ht as [-> Hsub].
        exists (lookup_returned x :: map lookup_returned l).
        rewrite E, <- (assoc_L (++)). split; [done|]. split; [done|].
        destruct (g tags); by constructor.
      * injection Erun as <- <-. destruct Ht as (seen & o & rest & -> & ->).
        exists (lookup_returned x :: map lookup_returned seen ++ [lookup_raised o err]).
        rewrite E, <- (assoc_L (++)). split; [done|].
        by exists (x :: seen), o, rest.
    + injection Erun as <- <-. exists [lookup_raised x err]. split; [done|].
      by exists [], x, l.
Qed.

(** X1. For any tag-lookup collaborator, the classifier queries the tags of
    mesh objects only, in enumeration order, in a rooms pass followed by a
    non-rooms pass.  It returns after both passes are complete; it raises
    exactly when a lookup raises, with that error, and that lookup is the
    last call it makes. *)
Theorem reconstruct_scene_vars_calls w :
  let mesh := mesh_objects (scene w) in
  let pass := map lookup_returned mesh in
  match snd (reconstruct_scene_vars host w) with
  | Ok _ => trace_of (reconstruct_scene_vars host) w = pass ++ pass
  | Raise err =>
      ∃ seen o rest,
        mesh = seen ++ o :: rest ∧
        (trace_of (reconstruct_scene_vars host) w
         = map lookup_returned seen ++ [lookup_raised o err] ∨
         trace_of (reconstruct_scene_vars host) w
         = pass ++ map lookup_returned seen ++ [lookup_raised o err])
  end.
Proof.
  intros mesh pass.
  assert (Hrun : ∃ t, calls (fst (reconstruct_scene_vars host w)) = calls w ++ t ∧
    match snd (reconstruct_scene_vars host w) with
    | Ok _ => t = pass ++ pass
    | Raise err =>
        ∃ seen o rest,
          mesh = seen ++ o :: rest ∧
          (t = map lookup_returned seen ++ [lookup_raised o err] ∨
           t = pass ++ map lookup_returned seen ++ [lookup_raised o err])
    end).
  { destruct (reconstruct_scene_vars host w) as [w' res] eqn:Erun. simpl.
    unfold reconstruct_scene_vars, bpy_data_objects in Erun.
    rewrite !bind_run in Erun. unfold get_scene, ret at 1 in Erun. simpl in Erun.
    rewrite bind_run in Erun. fold (mesh_objects (scene w)) in Erun. fold mesh in Erun.
    destruct (filterM_tags_calls room_tagged (has_room_tag host) mesh
                (fun o => eq_refl) w) as (t1 & E1 & H1).
    destruct (filterM (has_room_tag host) mesh w) as [w1 [rooms|err]]; simpl in *.
    2: { injection Erun as <- <-. exists t1. split; [done|].
         destruct H1 as (seen & o & rest & ? & ?). exists seen, o, rest. auto. }
    destruct H1 as [-> _]. rewrite bind_run in Erun.
    destruct (filterM_tags_calls (fun t => negb (room_tagged t)) (lacks_room_tag host)
                mesh (fun o => eq_refl) w1) as (t2 & E2 & H2).
    destruct (filterM (lacks_room_tag host) mesh w1) as [w2 [others|err]]; simpl in *.
    2: { injection Erun as <- <-. exists (pass ++ t2).
         rewrite E2, E1, <- (assoc_L (++)). split; [done|].
         destruct H2 as (seen & o & rest & ? & ->). exists seen, o, rest. auto. }
    destruct H2 as [-> _]. rewrite bind_run in Erun. unfold logger_info, ret in Erun.
    simpl in Erun. injection Erun as <- <-. simpl.
    exists (pass ++ pass). by rewrite E2, E1, <- (assoc_L (++)). }
  destruct Hrun as (t & E & Ht). by rewrite (trace_of_app _ _ _ E).
Qed.

(** X2. In a scene without mesh objects the classifier returns three empty
    lists without any tag lookup, whatever the collaborator; the scene is
    unchanged and the log reports zero rooms and zero other objects. *)
Theorem reconstruct_scene_vars_no_mesh w :
  mesh_objects (scene w) = [] →
  reconstruct_scene_vars host w
  = (mkWorld (scene w) (calls w)
       (log w ++ ["Reconstructed scene: Found 0 rooms and 0 other objects."]),
     Ok ([], [], [])).
Proof.
  intros Hmesh. unfold reconstruct_scene_vars, bpy_data_objects.
  rewrite !bind_run. unfold get_scene, ret at 1. simpl.
  fold (mesh_objects (scene w)). rewrite Hmesh. reflexivity.
Qed.

(** X3. When the tag lookup is a query and the scene lists no object twice,
    the combined list the classifier returns lists no object twice, and the
    two partitions together have as many objects as the scene has mesh
    objects. *)
Theorem reconstruct_scene_vars_NoDup tags_of w :
  tag_lookup_reports host tags_of →
  NoDup (objects (scene w)) →
  ∃ w' rooms others,
    reconstruct_scene_vars host w = (w', Ok (rooms, others, rooms ++ others)) ∧
    NoDup (rooms ++ others) ∧
    List.length rooms + List.length others = List.length (mesh_objects (scene w)).
Proof.
  intros Hq Hnd. destruct (reconstruct_scene_vars_query host tags_of w Hq) as [msg E].
  simpl in E. rewrite E. do 3 eexists. split; [reflexivity|].
  assert (Hperm :
    filter (fun o => room_tagged (tags_of (scene w) o)) (mesh_objects (scene w))
    ++ filter (fun o => negb (room_tagged (tags_of (scene w) o))) (mesh_objects (scene w))
    ≡ₚ mesh_objects (scene w)).
  { rewrite (list_filter_iff (fun o => negb (room_tagged (tags_of (scene w) o)))
               (fun o => ¬ room_tagged (tags_of (scene w) o)))
      by (intros; apply negb_True).
    apply filter_app_complement. }
  split.
  - rewrite Hperm. by apply NoDup_filter.
  - by rewrite <- length_app, (Permutation_length Hperm).
Qed.

(** The calls and the lists of a run of the classifier that returns. *)
Lemma reconstruct_scene_vars_ok w w' rooms others combined :
  reconstruct_scene_vars host w = (w', Ok (rooms, others, combined)) →
  combined = rooms ++ others ∧
  rooms `sublist_of` mesh_objects (scene w) ∧
  others `sublist_of` mesh_objects (scene w) ∧
  calls w' = calls w ++ map lookup_returned (mesh_objects (scene w))
                     ++ map lookup_returned (mesh_objects (scene w)).
Proof.
  intros Erun. unfold reconstruct_scene_vars, bpy_data_objects in Erun.
  rewrite !bind_run in Erun. unfold get_scene, ret at 1 in Erun. simpl in Erun.
  rewrite bind_run in Erun. fold (mesh_objects (scene w)) in Erun.
  destruct (filterM_tags_calls room_tagged (has_room_tag host) (mesh_objects (scene w))
              (fun o => eq_refl) w) as (t1 & E1 & H1).
  destruct (filterM (has_room_tag host) _ w) as [w1 [r|err]]; simpl in *; [|done].
  destruct H1 as [-> Hr]. rewrite bind_run in Erun.
  destruct (filterM_tags_calls (fun t => negb (room_tagged t)) (lacks_room_tag host)
              (mesh_objects (scene w)) (fun o => eq_refl) w1) as (t2 & E2 & H2).
  destruct (filterM (lacks_room_tag host) _ w1) as [w2 [n|err]]; simpl in *; [|done].
  destruct H2 as [-> Hn]. rewrite bind_run in Erun. unfold logger_info, ret in Erun.
  simpl in Erun. injection Erun as <- <- <- <-. simpl.
  by rewrite E2, E1, <- (assoc_L (++)).
Qed.

End ClassifierCalls.

(** ** Failures and the order of calls in the workflow *)


Section WorkflowCalls.

Context {Token : Type} (host : Host (Token := Token)).
Implicit Types w : World (Token := Token).

(** X4. When loading the scene file raises, the workflow ends with that
    error right there: the load is its only call, the scene is the one the
    loader left, and only the loading message is logged; the rig cleaner
    and everything after it are not run. *)
Theorem re_pose_cameras_load_failure args w s' err :
  wm_open_mainfile host (Path_str (input_blend args)) (scene w) = (s', Raise err) →
  re_pose_cameras host args w
  = (mkWorld s'
       (calls w ++ [mkEvent (CallOpenMainfile (Path_str (input_blend args)))
                      (Raised err)])
       (log w ++ ["Loading scene from " +:+ Path_str (input_blend args)]),
     Raise err).
Proof.
  intros Hopen. unfold re_pose_cameras.
  rewrite bind_run. unfold logger_info at 1. simpl.
  rewrite bind_run. unfold open_mainfile, invoke. simpl. by rewrite Hopen.
Qed.

(** X5. Whichever call raises (loading, a tag lookup, a placement call, the
    deletion of the floor surface or saving), the workflow ends with that
    error, the call is the last one made and every call before it
    returned. *)
Theorem re_pose_cameras_any_failure args w c err :
  mkEvent c (Raised err) ∈ trace_of (re_pose_cameras host args) w →
  snd (re_pose_cameras host args w) = Raise err ∧
  ∃ pre, trace_of (re_pose_cameras host args) w = pre ++ [mkEvent c (Raised err)] ∧
         Forall returned pre.
Proof.
  destruct (re_pose_cameras_trace host args w) as [_ (pre & tail & -> & Hpre & Hs)].
  intros Hin. destruct Hs as [(-> & [err' Hr] & Ha)|[Hret Htail]].
  - rewrite Hr in *. rewrite app_nil_r in *. destruct Ha as [Ha|(pre' & c' & -> & Ha)].
    + rewrite Forall_forall in Ha. by apply Ha, raised_not_returned in Hin.
    + apply elem_of_app in Hin as [Hin|Hin].
      * rewrite Forall_forall in Ha. by apply Ha, raised_not_returned in Hin.
      * apply list_elem_of_singleton in Hin. injection Hin as -> ->.
        split; [done|]. by exists pre'.
  - apply elem_of_app in Hin as [Hin|Hin].
    { rewrite Forall_forall in Hret. by apply Hret, raised_not_returned in Hin. }
    inversion Htail as [? ? ? ? err' Ht Hr|? ? ? ? err' Ht Hr|? ? ? ? err' Ht Hr|? ? ? ? Ht Hr];
      subst tail; clear Htail;
      rewrite ?elem_of_cons, elem_of_nil in Hin; destruct_or!; simplify_eq.
    + split; [done|]. by exists pre.
    + split; [done|]. eexists (pre ++ [_]). split; [by rewrite <- (assoc_L (++))|].
      apply Forall_app. split; [done|]. by repeat constructor.
    + split; [done|]. eexists (pre ++ [_; _]). split; [by rewrite <- (assoc_L (++))|].
      apply Forall_app. split; [done|]. by repeat constructor.
Qed.

(** X6. The scene is saved at most once, by the last call of the run, to
    the path computed from the arguments, and only after every other call
    of the run has returned. *)
Theorem re_pose_cameras_save_last args w e :
  e ∈ trace_of (re_pose_cameras host args) w →
  is_save_call (ev_call e) →
  ev_call e = CallSaveAsMainfile (Path_str (saved_path args)) ∧
  ∃ pre, trace_of (re_pose_cameras host args) w = pre ++ [e] ∧
         Forall returned pre ∧
         Forall (fun e' => ¬ is_save_call (ev_call e')) pre.
Proof.
  destruct (re_pose_cameras_trace host args w) as [_ (pre & tail & -> & Hpre & Hs)].
  assert (Hnosave : Forall (fun e' => ¬ is_save_call (ev_call e')) pre).
  { eapply Forall_impl; [exact Hpre|]. simpl. intros e' He' Hsave.
    by destruct (ev_call e'). }
  intros Hin Hsave. apply elem_of_app in Hin as [Hin|Hin].
  { rewrite Forall_forall in Hnosave. by apply Hnosave in Hin. }
  destruct Hs as [(-> & _)|[Hret Htail]]; [by apply elem_of_nil in Hin|].
  inversion Htail as [? ? ? ? err' Ht Hr|? ? ? ? err' Ht Hr|? ? ? ? err' Ht Hr|? ? ? ? Ht Hr];
    subst tail; clear Htail;
    rewrite ?elem_of_cons, elem_of_nil in Hin; destruct_or!; subst e;
    try (by destruct Hsave).
  - split; [done|]. eexists (pre ++ [_; _]). split; [by rewrite <- (assoc_L (++))|].
    split; apply Forall_app; (split; [done|]); repeat constructor; exact id.
  - split; [done|]. eexists (pre ++ [_; _]). split; [by rewrite <- (assoc_L (++))|].
    split; apply Forall_app; (split; [done|]); repeat constructor; exact id.
Qed.



End WorkflowCalls.

(** ** The name of the saved file *)

Section SavedPath.

Lemma append_cons c (s t : string) : String c s +:+ t = String c (s +:+ t).
Proof. reflexivity. Qed.

Lemma append_empty_r (s : string) : s +:+ "" = s.
Proof. induction s as [|c s IH]; [done|]. by rewrite append_cons, IH. Qed.

Lemma append_inv_head (s a b : string) : s +:+ a = s +:+ b → a = b.
Proof.
  induction s as [|c s IH]; [done|]. rewrite !append_cons. intros [= H]. by apply IH.
Qed.

Lemma rfind_from_split c (s : string) :
  ∀ i j, rfind_from c s i = Some j →
         ∃ pre post, s = pre +:+ String c post ∧ j = i + String.length pre.
Proof.
  induction s as [|c' s IH]; intros i j; simpl; [done|].
  destruct (rfind_from c s (S i)) as [j'|] eqn:E.
  - intros [= <-]. apply IH in E as (pre & post & -> & ->).
    exists (String c' pre), post. split; [done | simpl; lia].
  - destruct (Ascii.eqb c' c) eqn:Ec; [|done]. intros [= <-].
    apply Ascii.eqb_eq in Ec as ->. exists "", s. split; [done | simpl; lia].
Qed.

Lemma substring_prefix (pre rest : string) :
  String.substring 0 (String.length pre) (pre +:+ rest) = pre.
Proof.
  induction pre as [|c pre IH].
  - change ("" +:+ rest) with rest. simpl. by destruct rest.
  - rewrite append_cons. simpl. by rewrite IH.
Qed.

(** The name of a path is its stem followed by its suffix, which is empty
    or starts with a dot. *)
Lemma Path_stem_split p :
  ∃ ext, Path_name p = Path_stem p +:+ ext ∧ (ext = "" ∨ ∃ r, ext = String "." r).
Proof.
  unfold Path_stem, str_rfind. generalize (Path_name p). intros name.
  destruct (rfind_from "." name 0) as [j|] eqn:E.
  - destruct (_ && _)%bool.
    + apply rfind_from_split in E as (pre & post & -> & ->). simpl.
      rewrite Nat2Z.id, substring_prefix. eauto.
    + exists "". by rewrite append_empty_r; auto.
  - exists "". simpl. by rewrite append_empty_r; auto.
Qed.

(** X8. The file is saved under the name of the input file with its last
    suffix (empty, or starting with a dot) replaced by
    "_with_new_cameras.blend"; that name always differs from the name of
    the input file, so the path saved to is never the input path. *)
Theorem saved_path_not_input args :
  (∃ ext, Path_name (input_blend args) = Path_stem (input_blend args) +:+ ext ∧
          (ext = "" ∨ ∃ r, ext = String "." r) ∧
          Path_name (saved_path args)
          = Path_stem (input_blend args) +:+ "_with_new_cameras.blend") ∧
  Path_name (saved_path args) ≠ Path_name (input_blend args) ∧
  saved_path args ≠ input_blend args.
Proof.
  destruct (Path_stem_split (input_blend args)) as (ext & Hname & Hext).
  assert (Hsaved : Path_name (saved_path args)
                   = Path_stem (input_blend args) +:+ "_with_new_cameras.blend").
  { unfold saved_path. by rewrite Path_name_div. }
  assert (Hne : Path_name (saved_path args) ≠ Path_name (input_blend args)).
  { rewrite Hsaved, Hname. intros Heq. apply append_inv_head in Heq.
    destruct Hext as [->|[r ->]]; discriminate. }
  split; [by exists ext|]. split; [done|].
  intros Heq. apply Hne. by rewrite Heq.
Qed.

End SavedPath.

(** ** The rig cleaner, whatever the scene *)

Section RigCleanerAlways.

Context {Token : Type}.
Implicit Types w : World (Token := Token).

(** The scene the rig cleaner leaves. *)
Lemma cleaned_spec (s : Scene) :
  cleaned s
  = match collections s !! "camera_rigs" with
    | Some (r :: rigs) =>
        let keep := filter (fun o => o ∉ r :: rigs) in
        mkScene (keep (objects s)) (keep <$> collections s)
          (filter (fun o => o ∈ keep (objects s)) (selected s))
    | _ => s
    end.
Proof.
  unfold cleaned, delete_existing_camera_rigs, bind, get_scene. simpl.
  destruct (decide ("camera_rigs" ∈ dom (collections s))) as [Hin|Hout].
  - apply elem_of_dom in Hin as [c Hc]. rewrite Hc. simpl. by destruct c.
  - apply not_elem_of_dom in Hout. by rewrite Hout.
Qed.

Lemma cleaned_idempotent (s : Scene) : cleaned (cleaned s) = cleaned s.
Proof.
  rewrite (cleaned_spec s).
  destruct (collections s !! "camera_rigs") as [[|r rigs]|] eqn:Hc.
  - by rewrite cleaned_spec, Hc.
  - rewrite cleaned_spec. simpl. rewrite lookup_fmap, Hc. simpl.
    by rewrite filter_not_in_incl.
  - by rewrite cleaned_spec, Hc.
Qed.

(** X9. Running the rig cleaner a second time changes nothing more: two
    runs in a row return normally and leave the scene that one run
    leaves. *)
Theorem delete_existing_camera_rigs_twice w :
  snd ((delete_existing_camera_rigs ;; delete_existing_camera_rigs) w) = Ok tt ∧
  scene (fst ((delete_existing_camera_rigs ;; delete_existing_camera_rigs) w))
  = scene (fst (delete_existing_camera_rigs w)).
Proof.
  rewrite bind_run. destruct (delete_existing_camera_rigs_run w) as [msgs ->].
  match goal with |- context [delete_existing_camera_rigs ?w0] =>
    destruct (delete_existing_camera_rigs_run w0) as [msgs' ->] end.
  simpl. split; [done | apply cleaned_idempotent].
Qed.

End RigCleanerAlways.

(** ** The rig cleaner followed by the classifier *)

Section CleanThenClassify.

Context {Token : Type} (host : Host (Token := Token)).
Implicit Types w : World (Token := Token).

(** X11. The classifier runs after the rig cleaner: whatever the tag
    lookup answers, no member of the "camera_rigs" collection is in any of
    the lists it returns, and every object it returns is a mesh object the
    scene had before the cleaner ran. *)
Theorem rigs_are_not_classified w w' rigs rooms others combined :
  collections (scene w) !! "camera_rigs" = Some rigs →
  (delete_existing_camera_rigs ;; reconstruct_scene_vars host) w
  = (w', Ok (rooms, others, combined)) →
  ∀ o, o ∈ combined → (o ∉ rigs) ∧ (o ∈ mesh_objects (scene w)).
Proof.
  intros Hc Erun o Ho. rewrite bind_run in Erun.
  destruct (delete_existing_camera_rigs_run w) as [msgs Eclean].
  rewrite Eclean in Erun. clear Eclean.
  apply reconstruct_scene_vars_ok in Erun as (-> & Hrooms & Hothers & _).
  simpl in Hrooms, Hothers.
  assert (Hmesh : o ∈ mesh_objects (cleaned (scene w))).
  { apply elem_of_app in Ho as [Ho|Ho].
    - by apply (elem_of_sublist _ _ _ Ho Hrooms).
    - by apply (elem_of_sublist _ _ _ Ho Hothers). }
  unfold mesh_objects in *. apply list_elem_of_filter in Hmesh as [Htype Hobj].
  rewrite cleaned_spec, Hc in Hobj. destruct rigs as [|r rigs].
  - split; [apply not_elem_of_nil | by apply list_elem_of_filter].
  - simpl in Hobj. apply list_elem_of_filter in Hobj as [Hnot Hobj].
    split; [done | by apply list_elem_of_filter].
Qed.

End CleanThenClassify.

(** ** The further properties on the fake collaborator *)

Section More_runs_on_the_fake.

Import Fake.

Lemma reconstruct_scene_vars_no_mesh_witness :
  mesh_objects (scene (start studio)) = [] ∧
  reconstruct_scene_vars (host files solver_ok) (start studio)
  = (mkWorld studio []
       ([] ++ ["Reconstructed scene: Found 0 rooms and 0 other objects."]),
     Ok ([], [], [])).
Proof.
  assert (H : mesh_objects (scene (start studio)) = []) by (vm_compute; reflexivity).
  split; [exact H|].
  exact (reconstruct_scene_vars_no_mesh (host files solver_ok) (start studio) H).
Defined.

Lemma reconstruct_scene_vars_NoDup_witness :
  tag_lookup_reports (host files solver_ok) (fun _ => tags_of) ∧
  NoDup (objects (scene (start house))) ∧
  ∃ w' rooms others,
    reconstruct_scene_vars (host files solver_ok) (start house)
    = (w', Ok (rooms, others, rooms ++ others)) ∧
    NoDup (rooms ++ others) ∧
    List.length rooms + List.length others = List.length (mesh_objects house).
Proof.
  assert (Hq : tag_lookup_reports (host files solver_ok) (fun _ => tags_of))
    by (intros o s; reflexivity).
  assert (Hnd : NoDup (objects (scene (start house)))).
  { apply (bool_decide_unpack _). vm_compute. exact I. }
  split; [exact Hq|]. split; [exact Hnd|].
  exact (reconstruct_scene_vars_NoDup (host files solver_ok) (fun _ => tags_of)
           (start house) Hq Hnd).
Defined.

Lemma re_pose_cameras_load_failure_witness :
  wm_open_mainfile (host files solver_ok) (Path_str (input_blend (args "missing.blend")))
    (scene (start empty_scene))
  = (empty_scene, Raise "RuntimeError: cannot read file") ∧
  re_pose_cameras (host files solver_ok) (args "missing.blend") (start empty_scene)
  = (mkWorld empty_scene
       ([] ++ [mkEvent (CallOpenMainfile (Path_str (input_blend (args "missing.blend"))))
                 (Raised "RuntimeError: cannot read file")])
       ([] ++ ["Loading scene from "
               +:+ Path_str (input_blend (args "missing.blend"))]),
     Raise "RuntimeError: cannot read file").
Proof.
  assert (H : wm_open_mainfile (host files solver_ok)
                (Path_str (input_blend (args "missing.blend")))
                (scene (start empty_scene))
              = (empty_scene, Raise "RuntimeError: cannot read file"))
    by (vm_compute; reflexivity).
  split; [exact H|].
  exact (re_pose_cameras_load_failure (host files solver_ok) (args "missing.blend")
           (start empty_scene) empty_scene "RuntimeError: cannot read file" H).
Defined.

Lemma re_pose_cameras_any_failure_witness :
  lookup_raised (mesh "room.0") "AttributeError: object has no tag data"
    ∈ trace_of (re_pose_cameras (host_failing_lookup "room.0") (args "bare.blend"))
        (start empty_scene) ∧
  snd (re_pose_cameras (host_failing_lookup "room.0") (args "bare.blend")
         (start empty_scene))
  = Raise "AttributeError: object has no tag data" ∧
  ∃ pre, trace_of (re_pose_cameras (host_failing_lookup "room.0") (args "bare.blend"))
           (start empty_scene)
         = pre ++ [lookup_raised (mesh "room.0") "AttributeError: object has no tag data"] ∧
         Forall returned pre.
Proof.
  assert (H : lookup_raised (mesh "room.0") "AttributeError: object has no tag data"
    ∈ trace_of (re_pose_cameras (host_failing_lookup "room.0") (args "bare.blend"))
        (start empty_scene)).
  { vm_compute. repeat constructor. }
  split; [exact H|].
  exact (re_pose_cameras_any_failure (host_failing_lookup "room.0") (args "bare.blend")
           (start empty_scene) (CallGetTags (mesh "room.0"))
           "AttributeError: object has no tag data" H).
Defined.

Lemma re_pose_cameras_save_last_witness :
  mkEvent (CallSaveAsMainfile "outputs/posed/bare_with_new_cameras.blend") Returned
    ∈ trace_of (re_pose_cameras (host files solver_ok) (args "bare.blend"))
        (start empty_scene) ∧
  is_save_call (CallSaveAsMainfile (Token := nat)
                  "outputs/posed/bare_with_new_cameras.blend") ∧
  ∃ pre, trace_of (re_pose_cameras (host files solver_ok) (args "bare.blend"))
           (start empty_scene)
         = pre ++ [mkEvent (CallSaveAsMainfile
                              "outputs/posed/bare_with_new_cameras.blend") Returned] ∧
         Forall returned pre ∧
         Forall (fun e' => ¬ is_save_call (ev_call e')) pre.
Proof.
  assert (H : mkEvent (CallSaveAsMainfile "outputs/posed/bare_with_new_cameras.blend")
                Returned
    ∈ trace_of (re_pose_cameras (host files solver_ok) (args "bare.blend"))
        (start empty_scene)).
  { vm_compute. repeat constructor. }
  split; [exact H|]. split; [exact I|].
  exact (proj2 (re_pose_cameras_save_last (host files solver_ok) (args "bare.blend")
                  (start empty_scene) _ H I)).
Defined.


Lemma rigs_are_not_classified_witness :
  collections (scene (start workshop)) !! "camera_rigs" = Some workshop_rigs ∧
  mesh "camrig.gizmo" ∈ workshop_rigs ∧
  snd (reconstruct_scene_vars (host files solver_ok) (start workshop))
  = Ok ([mesh "room.0"], [mesh "bench"; mesh "camrig.gizmo"],
        [mesh "room.0"; mesh "bench"; mesh "camrig.gizmo"]) ∧
  snd ((delete_existing_camera_rigs ;; reconstruct_scene_vars (host files solver_ok))
         (start workshop))
  = Ok ([mesh "room.0"], [mesh "bench"], [mesh "room.0"; mesh "bench"]) ∧
  ∀ o, o ∈ [mesh "room.0"; mesh "bench"] →
       (o ∉ workshop_rigs) ∧ (o ∈ mesh_objects workshop).
Proof.
  assert (Hc : collections (scene (start workshop)) !! "camera_rigs"
               = Some workshop_rigs) by (vm_compute; reflexivity).
  assert (Erun :
    (delete_existing_camera_rigs ;; reconstruct_scene_vars (host files solver_ok))
      (start workshop)
    = (fst ((delete_existing_camera_rigs ;;
             reconstruct_scene_vars (host files solver_ok)) (start workshop)),
       Ok ([mesh "room.0"], [mesh "bench"], [mesh "room.0"; mesh "bench"])))
    by (vm_compute; reflexivity).
  split; [exact Hc|]. split; [repeat constructor|].
  split; [vm_compute; reflexivity|]. split; [by rewrite Erun|].
  exact (rigs_are_not_classified (host files solver_ok) (start workshop) _
           workshop_rigs _ _ _ Hc Erun).
Defined.

End More_runs_on_the_fake.
